(** * zerousb: discovery, handle lifecycle and transfer dispatch

    A shallow embedding of [libusb.go] and of the constants of
    [constants.go] that it relies on.  The native USB layer (libusb, reached
    through cgo) is not Go code: every native call is recorded in a trace of
    [call]s, and what the native layer answers is read from an explicit
    description of the attached hardware ([libusb_device], [native]). *)

From Stdlib Require Import ZArith List Bool Lia.
From Stdlib Require String DecimalString.
Import ListNotations.
Open Scope Z_scope.

(** ** constants.go *)

Module Constants.

Definition ClassHID : Z := 0x03.

Definition endpointNumMask : Z := 0x0f.
Definition endpointDirectionMask : Z := 0x80.

Definition TransferTypeControl : Z := 0x0.
Definition TransferTypeIsochronous : Z := 0x1.
Definition TransferTypeBulk : Z := 0x2.
Definition TransferTypeInterrupt : Z := 0x3.
Definition transferTypeMask : Z := 0x03.

Definition isoSyncTypeMask : Z := 0x0C.
Definition usageTypeMask : Z := 0x30.

End Constants.

(** ** The cgo names used by libusb.go

    [libusb.h] is included by [libusb.go] but its text is not part of the
    Go sources; the values below are those of the enumerations it declares,
    and agree with the Go constants above where both exist. *)

Module C.

Definition LIBUSB_CLASS_HID : Z := Constants.ClassHID.
Definition LIBUSB_TRANSFER_TYPE_BULK : Z := Constants.TransferTypeBulk.
Definition LIBUSB_TRANSFER_TYPE_INTERRUPT : Z := Constants.TransferTypeInterrupt.
Definition LIBUSB_ENDPOINT_IN : Z := Constants.endpointDirectionMask.

Definition LIBUSB_SUCCESS : Z := 0.
Definition LIBUSB_ERROR_NOT_FOUND : Z := -5.
Definition LIBUSB_ERROR_NOT_SUPPORTED : Z := -12.

(** The conversion [(C.int)(x)] of a Go [int]: the low 32 bits, signed. *)
Definition int (x : Z) : Z := (x + 2 ^ 31) mod 2 ^ 32 - 2 ^ 31.

(** The conversion [(C.uint)(x)] of a Go [int]: the low 32 bits, unsigned. *)
Definition uint (x : Z) : Z := x mod 2 ^ 32.

End C.

(** ** Descriptors, as the native layer hands them out *)

Record endpoint_descriptor := {
  bEndpointAddress : Z;
  bmAttributes : Z
}.

Record interface_descriptor := {
  bInterfaceClass : Z;
  bInterfaceSubClass : Z;
  bInterfaceProtocol : Z;
  bAlternateSetting : Z;
  (** the [bNumEndpoints] entries behind [alt.endpoint] *)
  endpoint : list endpoint_descriptor
}.

Record libusb_interface := {
  (** the [num_altsetting] entries behind [iface.altsetting] *)
  altsetting : list interface_descriptor
}.

Record config_descriptor := {
  (** the [bNumInterfaces] entries behind [cfg._interface] *)
  _interface : list libusb_interface
}.

Record device_descriptor := {
  idVendor : Z;
  idProduct : Z;
  bDeviceClass : Z;
  bDeviceSubClass : Z;
  bDeviceProtocol : Z;
  bNumConfigurations : Z
}.

(** A native device handle; a pointer to one is an [option], [None] for nil. *)
Definition handle := nat.

(** A native device object: its address, and what the descriptor and port
    queries answer for it (an errno together with the structure filled in). *)
Record libusb_device := {
  ptr : nat;
  libusb_get_device_descriptor : Z * device_descriptor;
  libusb_get_config_descriptor : nat -> Z * config_descriptor;
  libusb_get_port_number : Z
}.

(** ** Errors *)

Inductive error :=
| libusbError (errno : Z)
  (** "failed to initialize libusb: %v" *)
| ErrInit (e : error)
  (** "failed to get device %d descriptor: %v" *)
| ErrDeviceDescriptor (devnum : nat) (e : error)
  (** "failed to get device %d config %d: %v" *)
| ErrConfigDescriptor (devnum cfgnum : nat) (e : error)
  (** "failed to open device: not found" *)
| ErrOpenNotFound
  (** "failed to open device: %v" *)
| ErrOpen (e : error)
  (** "failed to claim interface: %v" *)
| ErrClaim (e : error)
  (** "device transfer type unsupported %v" *)
| ErrUnsupported (readerTransferType : option Z)
  (** "failed to read from device: %v" *)
| ErrRead (e : error)
  (** "failed to write to device: %v" *)
| ErrWrite (e : error).

(** Modelled from the spec: [ErrNotSupported] and [ErrNotFound] are declared
    in a file of the package that is not among the sources; they are the
    native outcomes "not supported" and "not found" of sections 4.4 and 7. *)
Definition ErrNotSupported : error := libusbError C.LIBUSB_ERROR_NOT_SUPPORTED.
Definition ErrNotFound : error := libusbError C.LIBUSB_ERROR_NOT_FOUND.

Fixpoint error_eqb (a b : error) : bool :=
  match a, b with
  | libusbError x, libusbError y => x =? y
  | ErrInit x, ErrInit y => error_eqb x y
  | ErrDeviceDescriptor n x, ErrDeviceDescriptor m y => Nat.eqb n m && error_eqb x y
  | ErrConfigDescriptor n c x, ErrConfigDescriptor m d y =>
      Nat.eqb n m && Nat.eqb c d && error_eqb x y
  | ErrOpenNotFound, ErrOpenNotFound => true
  | ErrOpen x, ErrOpen y => error_eqb x y
  | ErrClaim x, ErrClaim y => error_eqb x y
  | ErrUnsupported (Some x), ErrUnsupported (Some y) => x =? y
  | ErrUnsupported None, ErrUnsupported None => true
  | ErrRead x, ErrRead y => error_eqb x y
  | ErrWrite x, ErrWrite y => error_eqb x y
  | _, _ => false
  end.

(** Modelled from the spec: [fromLibusbErrno] is declared in a file of the
    package that is not among the sources; section 6 of the specification
    speaks of the native operations' documented success/failure results, so an
    errno of [LIBUSB_SUCCESS] is no error and any other errno is the
    [libusbError] of that number. *)
Definition fromLibusbErrno (errno : Z) : option error :=
  if errno =? C.LIBUSB_SUCCESS then None else Some (libusbError errno).

(** ** DeviceInfo

    The struct is declared outside libusb.go; the fields are those the
    composite literal in [getAllDevices] fills in.  [Path] keeps the three
    arguments handed to [fmt.Sprintf("%04x:%04x:%02d", ...)].  The pointer
    fields are [option]s: [None] is the nil pointer.  [libusbDevice] is only
    ever read from records that [getAllDevices] or [open] filled in, where it
    holds a device address. *)
Record DeviceInfo := {
  Path : Z * Z * Z;
  VendorID : Z;
  ProductID : Z;
  Class : Z;
  SubClass : Z;
  Protocol : Z;
  Interface : Z;
  libusbDevice : nat;
  libusbPort : option Z;
  libusbReader : option Z;
  libusbWriter : option Z;
  readerTransferType : option Z;
  writerTransferType : option Z;
  InterfaceAlternate : Z;
  InterfaceClass : Z;
  InterfaceSubClass : Z;
  InterfaceProtocol : Z
}.

(** ** Native calls, in the order the Go code issues them *)

Inductive call :=
| libusb_init
| libusb_get_device_list (count : Z) (list : list nat)
  (** the first argument is the list pointer handed over, [None] for nil *)
| libusb_free_device_list (list : option (list nat)) (unref_devices : Z)
| get_device_descriptor (dev : nat)
| get_config_descriptor (dev : nat) (cfgnum : nat)
| libusb_ref_device (dev : nat)
| get_port_number (dev : nat)
| libusb_unref_device (dev : nat)
| libusb_open (dev : nat)
| libusb_set_auto_detach_kernel_driver (h : option handle) (val : Z)
| libusb_detach_kernel_driver (h : option handle) (iface : Z)
| libusb_claim_interface (h : option handle) (iface : Z)
| libusb_release_interface (h : option handle) (iface : Z)
| libusb_close (h : option handle)
| libusb_interrupt_transfer (h : option handle) (ep : Z) (data : list Z) (len : Z) (timeout : Z)
| libusb_bulk_transfer (h : option handle) (ep : Z) (data : list Z) (len : Z) (timeout : Z).

(** What the native layer answers: the state of the global context pointer
    [C.ctx], and the result of each call that returns something. *)
Record native := {
  ctx_set : bool;
  init_errno : Z;
  device_list_count : Z;
  device_list : list libusb_device;
  open_result : nat -> Z * option handle;
  set_auto_detach_errno : option handle -> Z -> Z;
  detach_errno : option handle -> Z -> Z;
  claim_errno : option handle -> Z -> Z;
  (** errno and [transferred], from handle, endpoint, buffer and the
      timeout as the native call receives it *)
  interrupt_result : option handle -> Z -> list Z -> Z -> Z * Z;
  bulk_result : option handle -> Z -> list Z -> Z -> Z * Z
}.

(** ** getAllDevices *)

Module Discovery.

(** The four locals declared per alt-setting before the endpoint loop. *)
Record locals := {
  reader : option Z;
  writer : option Z;
  readerTT : Z;
  writerTT : Z
}.

Definition locals0 : locals :=
  {| reader := None; writer := None; readerTT := 0; writerTT := 0 |}.

(** [if end.bmAttributes != INTERRUPT && end.bmAttributes != BULK { continue }] *)
Definition skipEndpoint (e : endpoint_descriptor) : bool :=
  negb (bmAttributes e =? C.LIBUSB_TRANSFER_TYPE_INTERRUPT)
  && negb (bmAttributes e =? C.LIBUSB_TRANSFER_TYPE_BULK).

(** [end.bEndpointAddress & LIBUSB_ENDPOINT_IN == LIBUSB_ENDPOINT_IN] *)
Definition endpointIn (e : endpoint_descriptor) : bool :=
  Z.land (bEndpointAddress e) C.LIBUSB_ENDPOINT_IN =? C.LIBUSB_ENDPOINT_IN.

(** Body of [for _, end := range ends]. *)
Definition endpointStep (l : locals) (e : endpoint_descriptor) : locals :=
  if skipEndpoint e then l
  else if endpointIn e then
    {| reader := Some (bEndpointAddress e); writer := writer l;
       readerTT := bmAttributes e; writerTT := writerTT l |}
  else
    {| reader := reader l; writer := Some (bEndpointAddress e);
       readerTT := readerTT l; writerTT := bmAttributes e |}.

Definition scanEndpoints (ends : list endpoint_descriptor) : locals :=
  fold_left endpointStep ends locals0.

(** The accumulated result and the native calls issued so far. *)
Record state := {
  infos : list DeviceInfo;
  calls : list call
}.

Definition emit (s : state) (cs : list call) : state :=
  {| infos := infos s; calls := calls s ++ cs |}.

(** The composite literal built on a match. *)
Definition mkDeviceInfo (vendorID : Z) (dev : libusb_device) (desc : device_descriptor)
    (ifacenum : nat) (alt : interface_descriptor) (l : locals) : DeviceInfo :=
  let port := libusb_get_port_number dev in
  {| Path := (vendorID, idProduct desc, port);
     VendorID := idVendor desc;
     ProductID := idProduct desc;
     Class := bDeviceClass desc;
     SubClass := bDeviceSubClass desc;
     Protocol := bDeviceProtocol desc;
     Interface := Z.of_nat ifacenum;
     libusbDevice := ptr dev;
     libusbPort := Some port;
     libusbReader := reader l;
     libusbWriter := writer l;
     readerTransferType := Some (readerTT l);
     writerTransferType := Some (writerTT l);
     InterfaceAlternate := bAlternateSetting alt;
     InterfaceClass := bInterfaceClass alt;
     InterfaceSubClass := bInterfaceSubClass alt;
     InterfaceProtocol := bInterfaceProtocol alt |}.

(** Body of [for _, alt := range alts]. *)
Definition altStep (vendorID : Z) (dev : libusb_device) (desc : device_descriptor)
    (ifacenum : nat) (s : state) (alt : interface_descriptor) : state :=
  if bInterfaceClass alt =? C.LIBUSB_CLASS_HID then s
  else
    let l := scanEndpoints (endpoint alt) in
    match reader l, writer l with
    | Some _, Some _ =>
        {| infos := infos s ++ [mkDeviceInfo vendorID dev desc ifacenum alt l];
           calls := calls s ++ [libusb_ref_device (ptr dev); get_port_number (ptr dev)] |}
    | _, _ => s
    end.

(** [for ifacenum, iface := range ifaces], from index [ifacenum] on. *)
Fixpoint ifaceLoop (vendorID : Z) (dev : libusb_device) (desc : device_descriptor)
    (ifacenum : nat) (ifaces : list libusb_interface) (s : state) : state :=
  match ifaces with
  | [] => s
  | iface :: rest =>
      let s' :=
        match altsetting iface with
        | [] => s
        | alts => fold_left (altStep vendorID dev desc ifacenum) alts s
        end in
      ifaceLoop vendorID dev desc (S ifacenum) rest s'
  end.

(** [for cfgnum := ...; cfgnum < int(desc.bNumConfigurations); cfgnum++],
    with [todo] iterations left.  An error leaves the whole function. *)
Fixpoint cfgLoop (vendorID : Z) (devnum : nat) (dev : libusb_device)
    (desc : device_descriptor) (todo : nat) (cfgnum : nat) (s : state)
    : state * option error :=
  match todo with
  | O => (s, None)
  | S todo' =>
      let (errno, cfg) := libusb_get_config_descriptor dev cfgnum in
      let s1 := emit s [get_config_descriptor (ptr dev) cfgnum] in
      match fromLibusbErrno errno with
      | Some err => (s1, Some (ErrConfigDescriptor devnum cfgnum err))
      | None =>
          cfgLoop vendorID devnum dev desc todo' (S cfgnum)
            (ifaceLoop vendorID dev desc 0 (_interface cfg) s1)
      end
  end.

(** [(vendorID > 0 && ID(desc.idVendor) != vendorID) ||
     (productID > 0 && ID(desc.idProduct) != productID)] *)
Definition filteredOut (vendorID productID : Z) (desc : device_descriptor) : bool :=
  ((0 <? vendorID) && negb (idVendor desc =? vendorID))
  || ((0 <? productID) && negb (idProduct desc =? productID)).

(** [for devnum, dev := range devices], from index [devnum] on. *)
Fixpoint devLoop (vendorID productID : Z) (devnum : nat)
    (devices : list libusb_device) (s : state) : state * option error :=
  match devices with
  | [] => (s, None)
  | dev :: rest =>
      let (errno, desc) := libusb_get_device_descriptor dev in
      let s1 := emit s [get_device_descriptor (ptr dev)] in
      match fromLibusbErrno errno with
      | Some err => (s1, Some (ErrDeviceDescriptor devnum err))
      | None =>
          if filteredOut vendorID productID desc then
            devLoop vendorID productID (S devnum) rest s1
          else if bDeviceClass desc =? C.LIBUSB_CLASS_HID then
            devLoop vendorID productID (S devnum) rest s1
          else
            match cfgLoop vendorID devnum dev desc
                    (Z.to_nat (bNumConfigurations desc)) 0 s1 with
            | (s2, Some err) => (s2, Some err)
            | (s2, None) => devLoop vendorID productID (S devnum) rest s2
            end
      end
  end.

(** The slice laid over the native array: [Len: int(count)]. *)
Definition devices (n : native) : list libusb_device :=
  firstn (Z.to_nat (device_list_count n)) (device_list n).

(** [getAllDevices]: the returned slice, the returned error, and the native
    calls made.

    [defer C.libusb_free_device_list(deviceList, 1)] is executed while
    [deviceList] still holds its zero value: Go evaluates the arguments of
    a deferred call when the [defer] statement runs, so the call made on
    return receives the nil pointer, whatever [libusb_get_device_list]
    stored in the variable afterwards. *)
Definition getAllDevices (n : native) (vendorID productID : Z)
    : list DeviceInfo * option error * list call :=
  let init :=
    if ctx_set n then ([], None)
    else ([libusb_init], fromLibusbErrno (init_errno n)) in
  match init with
  | (c0, Some err) => ([], Some (ErrInit err), c0)
  | (c0, None) =>
      let deferred := [libusb_free_device_list None 1] in
      let count := device_list_count n in
      let c1 := c0 ++ [libusb_get_device_list count (map ptr (devices n))] in
      if count <? 0 then
        ([], Some (libusbError count), c1 ++ deferred)
      else
        match devLoop vendorID productID 0 (devices n)
                {| infos := []; calls := c1 |} with
        | (s, Some err) => (infos s, Some err, calls s ++ deferred)
        | (s, None) =>
            (infos s, None,
             calls s
             ++ map (fun info => libusb_unref_device (libusbDevice info)) (infos s)
             ++ deferred)
        end
  end.

End Discovery.

(** ** Results of Go calls that may panic *)

Inductive panic :=
  (** "invalid memory address or nil pointer dereference" *)
| NilDereference
  (** "index out of range [i] with length n" *)
| IndexOutOfRange (i : Z) (n : nat).

Inductive outcome (A : Type) :=
| Panic (p : panic)
| Ret (a : A).
Arguments Panic {A} p.
Arguments Ret {A} a.

(** ** open, Close and the detach helpers *)

Module Lifecycle.

(** The Go struct [libusbDevice]; the name is taken by the field of
    [DeviceInfo] that it embeds next to.  The mutex is left out: the calls
    of one handle are modelled one after the other. *)
Record libusbDeviceT := {
  info : DeviceInfo;
  handle_ : option handle;
  writeTimeout : Z;
  readTimeout : Z
}.

Definition unref (m : DeviceInfo) : call := libusb_unref_device (libusbDevice m).

(** [*match.libusbPort == *info.libusbPort && match.Interface == info.Interface],
    [None] when one of the two pointers is nil. *)
Definition samePortAndInterface (m i : DeviceInfo) : option bool :=
  match libusbPort m, libusbPort i with
  | Some p, Some q => Some ((p =? q) && (Interface m =? Interface i))
  | _, _ => None
  end.

(** [for _, match := range matches] of [open]; [device] is the local of that
    name, [None] while it is nil. *)
Fixpoint selectLoop (i : DeviceInfo) (matches : list DeviceInfo)
    (device : option nat) (cs : list call) : outcome (option nat) * list call :=
  match matches with
  | [] => (Ret device, cs)
  | m :: rest =>
      match device with
      | Some _ => selectLoop i rest device (cs ++ [unref m])
      | None =>
          match samePortAndInterface m i with
          | None => (Panic NilDereference, cs)
          | Some true => selectLoop i rest (Some (libusbDevice m)) cs
          | Some false => selectLoop i rest None (cs ++ [unref m])
          end
      end
  end.

Definition SetAutoDetach (n : native) (dev : libusbDeviceT) (val : Z)
    : option error * list call :=
  let err := fromLibusbErrno (set_auto_detach_errno n (handle_ dev) val) in
  let cs := [libusb_set_auto_detach_kernel_driver (handle_ dev) val] in
  match err with
  | Some e => if negb (error_eqb e ErrNotSupported) then (Some e, cs) else (None, cs)
  | None => (None, cs)
  end.

Definition DetachKernelDriver (n : native) (dev : libusbDeviceT)
    : option error * list call :=
  let iface := Interface (info dev) in
  let err := fromLibusbErrno (detach_errno n (handle_ dev) iface) in
  let cs := [libusb_detach_kernel_driver (handle_ dev) iface] in
  match err with
  | Some e =>
      if negb (error_eqb e ErrNotSupported) && negb (error_eqb e ErrNotFound)
      then (Some e, cs) else (None, cs)
  | None => (None, cs)
  end.

Definition withDevice (i : DeviceInfo) (device : nat) : DeviceInfo :=
  {| Path := Path i; VendorID := VendorID i; ProductID := ProductID i;
     Class := Class i; SubClass := SubClass i; Protocol := Protocol i;
     Interface := Interface i;
     libusbDevice := device;
     libusbPort := libusbPort i; libusbReader := libusbReader i;
     libusbWriter := libusbWriter i;
     readerTransferType := readerTransferType i;
     writerTransferType := writerTransferType i;
     InterfaceAlternate := InterfaceAlternate i;
     InterfaceClass := InterfaceClass i;
     InterfaceSubClass := InterfaceSubClass i;
     InterfaceProtocol := InterfaceProtocol i |}.

(** [open]: the pair returned (or the panic), and the native calls made. *)
Definition open (n : native) (i : DeviceInfo)
    : outcome (option libusbDeviceT * option error) * list call :=
  let '(matches, err, c0) := Discovery.getAllDevices n (VendorID i) (ProductID i) in
  match err with
  | Some e => (Ret (None, Some e), c0 ++ map unref matches)
  | None =>
      match selectLoop i matches None c0 with
      | (Panic p, c1) => (Panic p, c1)
      | (Ret None, c1) => (Ret (None, Some ErrOpenNotFound), c1)
      | (Ret (Some device), c1) =>
          let i' := withDevice i device in
          let (errno, h) := open_result n device in
          let c2 := c1 ++ [libusb_open device] in
          match fromLibusbErrno errno with
          | Some e => (Ret (None, Some (ErrOpen e)), c2)
          | None =>
              let libusbDvc :=
                {| info := i'; handle_ := h; writeTimeout := 0; readTimeout := 0 |} in
              (* both results are dropped *)
              let c3 := c2 ++ snd (SetAutoDetach n libusbDvc 1) in
              let c4 := c3 ++ snd (DetachKernelDriver n libusbDvc) in
              let c5 := c4 ++ [libusb_claim_interface h (Interface i')] in
              match fromLibusbErrno (claim_errno n h (Interface i')) with
              | Some e => (Ret (None, Some (ErrClaim e)), c5 ++ [libusb_close h])
              | None =>
                  (Ret (Some {| info := i'; handle_ := h;
                                writeTimeout := 0; readTimeout := 0 |}, None), c5)
              end
          end
      end
  end.

(** [Close]: the handle struct after the call, the error returned, and the
    native calls made. *)
Definition Close (dev : libusbDeviceT) : libusbDeviceT * option error * list call :=
  let '(dev', cs) :=
    match handle_ dev with
    | Some h =>
        ({| info := info dev; handle_ := None;
            writeTimeout := writeTimeout dev; readTimeout := readTimeout dev |},
         [libusb_release_interface (Some h) (Interface (info dev));
          libusb_close (Some h)])
    | None => (dev, [])
    end in
  (dev', None, cs ++ [libusb_unref_device (libusbDevice (info dev))]).

Definition SetWriteTimeout (dev : libusbDeviceT) (timeout : Z) : libusbDeviceT :=
  {| info := info dev; handle_ := handle_ dev;
     writeTimeout := timeout; readTimeout := readTimeout dev |}.

Definition SetReadTimeout (dev : libusbDeviceT) (timeout : Z) : libusbDeviceT :=
  {| info := info dev; handle_ := handle_ dev;
     writeTimeout := writeTimeout dev; readTimeout := timeout |}.

End Lifecycle.

(** ** Read and Write *)

Module Transfer.
Import Lifecycle.

(** The four helpers share one shape: dereference the endpoint pointer, take
    the address of [b[0]], call the native transfer with [(C.int)(len(b))]
    and [(C.uint)(timeout)], wrap a failure.  A byte buffer is a list of
    byte values. *)
Definition transfer
    (result : option handle -> Z -> list Z -> Z -> Z * Z)
    (made : option handle -> Z -> list Z -> Z -> Z -> call)
    (wrap : error -> error)
    (dev : libusbDeviceT) (endpointPtr : option Z) (b : list Z) (timeout : Z)
    : outcome (Z * option error) * list call :=
  match endpointPtr with
  | None => (Panic NilDereference, [])
  | Some ep =>
      match b with
      | [] => (Panic (IndexOutOfRange 0 0), [])
      | _ :: _ =>
          let len := C.int (Z.of_nat (length b)) in
          let tmo := C.uint timeout in
          let (errno, transferred) := result (handle_ dev) ep b tmo in
          let cs := [made (handle_ dev) ep b len tmo] in
          match fromLibusbErrno errno with
          | Some err => (Ret (0, Some (wrap err)), cs)
          | None => (Ret (transferred, None), cs)
          end
      end
  end.

Definition readInterrupt (n : native) (dev : libusbDeviceT) (b : list Z) (timeout : Z) :=
  transfer (interrupt_result n) libusb_interrupt_transfer ErrRead
    dev (libusbReader (info dev)) b timeout.

Definition readBulk (n : native) (dev : libusbDeviceT) (b : list Z) (timeout : Z) :=
  transfer (bulk_result n) libusb_bulk_transfer ErrRead
    dev (libusbReader (info dev)) b timeout.

Definition writeBulk (n : native) (dev : libusbDeviceT) (b : list Z) (timeout : Z) :=
  transfer (bulk_result n) libusb_bulk_transfer ErrWrite
    dev (libusbWriter (info dev)) b timeout.

Definition writeInterrupt (n : native) (dev : libusbDeviceT) (b : list Z) (timeout : Z) :=
  transfer (interrupt_result n) libusb_interrupt_transfer ErrWrite
    dev (libusbWriter (info dev)) b timeout.

Definition Write (n : native) (dev : libusbDeviceT) (b : list Z)
    : outcome (Z * option error) * list call :=
  let timeout := writeTimeout dev in
  match writerTransferType (info dev) with
  | None => (Panic NilDereference, [])
  | Some kind =>
      if kind =? C.LIBUSB_TRANSFER_TYPE_INTERRUPT then writeInterrupt n dev b timeout
      else if kind =? C.LIBUSB_TRANSFER_TYPE_BULK then writeBulk n dev b timeout
      else (Ret (0, Some (ErrUnsupported (readerTransferType (info dev)))), [])
  end.

Definition Read (n : native) (dev : libusbDeviceT) (b : list Z)
    : outcome (Z * option error) * list call :=
  let timeout := readTimeout dev in
  match readerTransferType (info dev) with
  | None => (Panic NilDereference, [])
  | Some kind =>
      if kind =? C.LIBUSB_TRANSFER_TYPE_INTERRUPT then readInterrupt n dev b timeout
      else if kind =? C.LIBUSB_TRANSFER_TYPE_BULK then readBulk n dev b timeout
      else (Ret (0, Some (ErrUnsupported (readerTransferType (info dev)))), [])
  end.

End Transfer.

(** ** Reference counting of the native layer *)

Module Refcount.

(** Modelled from the spec: the reference counting of native device objects
    belongs to the native layer (section 6: "enumerate device list with
    reference counting (retain/release primitives)"; section 4.2, step 7:
    releasing the list drops the hold on the devices in it).  The list
    handed out holds one reference on each device in it; freeing it with a
    non-zero flag drops them, and freeing the nil pointer does nothing;
    retain adds one and release removes one.  References that the native
    layer keeps for an open handle are not counted. *)
Definition delta (d : nat) (c : call) : Z :=
  match c with
  | libusb_get_device_list _ l => Z.of_nat (count_occ Nat.eq_dec l d)
  | libusb_free_device_list (Some l) flag =>
      if flag =? 0 then 0 else - Z.of_nat (count_occ Nat.eq_dec l d)
  | libusb_ref_device d' => if Nat.eqb d' d then 1 else 0
  | libusb_unref_device d' => if Nat.eqb d' d then -1 else 0
  | _ => 0
  end.

(** References on device [d] left by a sequence of calls. *)
Definition outstanding (cs : list call) (d : nat) : Z :=
  fold_right (fun c acc => delta d c + acc) 0 cs.

Definition isRef (d : nat) (c : call) : bool :=
  match c with libusb_ref_device d' => Nat.eqb d' d | _ => false end.

Definition isUnref (d : nat) (c : call) : bool :=
  match c with libusb_unref_device d' => Nat.eqb d' d | _ => false end.

(** Number of retain (release) calls on [d] among [cs]. *)
Definition refs (d : nat) (cs : list call) : nat := length (filter (isRef d) cs).
Definition unrefs (d : nat) (cs : list call) : nat := length (filter (isUnref d) cs).

(** Number of records among [l] that carry device [d]. *)
Definition recordsOn (d : nat) (l : list DeviceInfo) : nat :=
  length (filter (fun i => Nat.eqb (libusbDevice i) d) l).

(** The reference balance as the specification words it: after the call,
    each device holds as many references as records were returned for it. *)
Definition reference_balance (n : native) (vendorID productID : Z) : Prop :=
  let '(l, _, cs) := Discovery.getAllDevices n vendorID productID in
  forall d, outstanding cs d = Z.of_nat (recordsOn d l).

End Refcount.

(** ** What discovery is meant to emit *)

Module Matching.
Import Discovery.

(** The whole attributes byte is one of the two transfer-type codes. *)
Definition bulkOrInterrupt (e : endpoint_descriptor) : Prop :=
  bmAttributes e = Constants.TransferTypeBulk
  \/ bmAttributes e = Constants.TransferTypeInterrupt.

Definition directionIn (e : endpoint_descriptor) : bool :=
  Z.testbit (bEndpointAddress e) 7.

Definition hasIn (alt : interface_descriptor) : Prop :=
  exists e, In e (endpoint alt) /\ bulkOrInterrupt e /\ directionIn e = true.

Definition hasOut (alt : interface_descriptor) : Prop :=
  exists e, In e (endpoint alt) /\ bulkOrInterrupt e /\ directionIn e = false.

Definition altEmits (alt : interface_descriptor) : Prop :=
  bInterfaceClass alt <> Constants.ClassHID /\ hasIn alt /\ hasOut alt.

Definition fromAlt (vendorID : Z) (dev : libusb_device) (desc : device_descriptor)
    (ifacenum : nat) (alt : interface_descriptor) (i : DeviceInfo) : Prop :=
  altEmits alt
  /\ i = mkDeviceInfo vendorID dev desc ifacenum alt (scanEndpoints (endpoint alt)).

Definition fromInterfaces (vendorID : Z) (dev : libusb_device) (desc : device_descriptor)
    (first : nat) (ifaces : list libusb_interface) (i : DeviceInfo) : Prop :=
  exists k iface alt,
    nth_error ifaces k = Some iface /\ In alt (altsetting iface)
    /\ fromAlt vendorID dev desc (first + k) alt i.

Definition fromConfigs (vendorID : Z) (dev : libusb_device) (desc : device_descriptor)
    (first todo : nat) (i : DeviceInfo) : Prop :=
  exists j, (j < todo)%nat
    /\ fromInterfaces vendorID dev desc 0
         (_interface (snd (libusb_get_config_descriptor dev (first + j)))) i.

Definition fromDevice (vendorID productID : Z) (dev : libusb_device)
    (i : DeviceInfo) : Prop :=
  let desc := snd (libusb_get_device_descriptor dev) in
  filteredOut vendorID productID desc = false
  /\ bDeviceClass desc <> Constants.ClassHID
  /\ fromConfigs vendorID dev desc 0 (Z.to_nat (bNumConfigurations desc)) i.

(** [i] is the record of an alt-setting, found under a device of the list that
    passes the filters and is not of class HID, whose own class is not HID
    and which has a bulk or interrupt endpoint in each direction. *)
Definition emittedFrom (n : native) (vendorID productID : Z) (i : DeviceInfo) : Prop :=
  exists dev, In dev (devices n) /\ fromDevice vendorID productID dev i.

(** The transfer kind as the specification reads it: bits 0-1 of the
    attributes byte. *)
Definition kind (e : endpoint_descriptor) : Z :=
  Z.land (bmAttributes e) Constants.transferTypeMask.

Definition kindBulkOrInterrupt (e : endpoint_descriptor) : Prop :=
  kind e = Constants.TransferTypeBulk \/ kind e = Constants.TransferTypeInterrupt.

(** The pair the specification asks for: an IN and an OUT endpoint of one
    and the same kind, bulk or interrupt. *)
Definition sameKindPair (alt : interface_descriptor) : Prop :=
  exists ein eout,
    In ein (endpoint alt) /\ In eout (endpoint alt)
    /\ directionIn ein = true /\ directionIn eout = false
    /\ kindBulkOrInterrupt ein /\ kind ein = kind eout.

Definition candidateIn (e : endpoint_descriptor) : bool :=
  negb (skipEndpoint e) && endpointIn e.

Definition candidateOut (e : endpoint_descriptor) : bool :=
  negb (skipEndpoint e) && negb (endpointIn e).

End Matching.

(** ** Sample hardware *)

Module Samples.

Definition ep (address attributes : Z) : endpoint_descriptor :=
  {| bEndpointAddress := address; bmAttributes := attributes |}.

Definition alt (class setting : Z) (ends : list endpoint_descriptor)
    : interface_descriptor :=
  {| bInterfaceClass := class; bInterfaceSubClass := 0; bInterfaceProtocol := 0;
     bAlternateSetting := setting; endpoint := ends |}.

Definition noConfig : config_descriptor := {| _interface := [] |}.

(** A device whose descriptor queries all succeed. *)
Definition device (address : nat) (class port : Z) (cfgs : list config_descriptor)
    : libusb_device :=
  {| ptr := address;
     libusb_get_device_descriptor :=
       (0, {| idVendor := 0x1209; idProduct := 0x0001; bDeviceClass := class;
              bDeviceSubClass := 0; bDeviceProtocol := 0;
              bNumConfigurations := Z.of_nat (length cfgs) |});
     libusb_get_config_descriptor := fun k =>
       match nth_error cfgs k with
       | Some c => (0, c)
       | None => (C.LIBUSB_ERROR_NOT_FOUND, noConfig)
       end;
     libusb_get_port_number := port |}.

(** A native layer with an initialised context where every call succeeds;
    [detach] is what the explicit kernel-driver detach answers. *)
Definition world (devs : list libusb_device) (detach : Z) : native :=
  {| ctx_set := true; init_errno := 0;
     device_list_count := Z.of_nat (length devs);
     device_list := devs;
     open_result := fun d => (0, Some d);
     set_auto_detach_errno := fun _ _ => 0;
     detach_errno := fun _ _ => detach;
     claim_errno := fun _ _ => 0;
     interrupt_result := fun _ _ b _ => (0, Z.of_nat (length b));
     bulk_result := fun _ _ b _ => (0, Z.of_nat (length b)) |}.

(** The listing call itself fails. *)
Definition brokenListing : native :=
  {| ctx_set := true; init_errno := 0;
     device_list_count := -99;
     device_list := [];
     open_result := fun d => (0, Some d);
     set_auto_detach_errno := fun _ _ => 0;
     detach_errno := fun _ _ => 0;
     claim_errno := fun _ _ => 0;
     interrupt_result := fun _ _ b _ => (0, Z.of_nat (length b));
     bulk_result := fun _ _ b _ => (0, Z.of_nat (length b)) |}.

Definition bulkIn1 := ep 0x81 2.
Definition bulkIn2 := ep 0x82 2.
Definition bulkOut := ep 0x01 2.
Definition interruptOut := ep 0x02 3.

Definition bulkPair := alt 0xff 0 [bulkIn1; bulkOut].
Definition bulkPairAlt1 := alt 0xff 1 [bulkIn2; bulkOut].
Definition mixedPair := alt 0xff 0 [bulkIn1; interruptOut].

(** One vendor-class device on port 4, one interface with two alt-settings
    that both offer a bulk pair. *)
Definition twoAltDevice : libusb_device :=
  device 1 0 4 [ {| _interface := [ {| altsetting := [bulkPair; bulkPairAlt1] |} ] |} ].

Definition mixedDevice : libusb_device :=
  device 1 0 4 [ {| _interface := [ {| altsetting := [mixedPair] |} ] |} ].

Definition twoAltWorld : native := world [twoAltDevice] 0.
Definition mixedWorld : native := world [mixedDevice] 0.
(** the explicit detach fails with LIBUSB_ERROR_IO *)
Definition detachFails : native := world [twoAltDevice] (-1).

(** A record as a caller holds it after a scan of [twoAltWorld]. *)
Definition wanted : DeviceInfo :=
  Discovery.mkDeviceInfo 0 twoAltDevice (snd (libusb_get_device_descriptor twoAltDevice))
    0 bulkPair (Discovery.scanEndpoints (endpoint bulkPair)).

Definition openHandle : Lifecycle.libusbDeviceT :=
  {| Lifecycle.info := wanted; Lifecycle.handle_ := Some 1%nat;
     Lifecycle.writeTimeout := 0; Lifecycle.readTimeout := 0 |}.

End Samples.

(** ** How a scan state grows *)

Module Progress.
Import Discovery Refcount.

(** [s'] extends [s]: the records added are exactly those satisfying [P],
    each came with one retain call on its device, and no release call was
    made. *)
Definition ext (P : DeviceInfo -> Prop) (s s' : state) : Prop :=
  exists di dc,
    infos s' = infos s ++ di /\ calls s' = calls s ++ dc
    /\ (forall d, refs d dc = recordsOn d di)
    /\ (forall d, unrefs d dc = 0%nat)
    /\ (forall i, In i di <-> P i).

(** The calls made before the device loop starts. *)
Definition prologue (n : native) : list call :=
  (if ctx_set n then [] else [libusb_init])
  ++ [libusb_get_device_list (device_list_count n) (map ptr (devices n))].

End Progress.

(** ** What open is meant to look at *)

Module Selection.

(** Candidate [m] sits on the port and carries the interface index that
    [i] names. *)
Definition matches (i m : DeviceInfo) : Prop :=
  libusbPort m = libusbPort i /\ Interface m = Interface i.

(** The same native layer, with another answer to the explicit detach. *)
Definition withDetach (n : native) (f : option handle -> Z -> Z) : native :=
  {| ctx_set := ctx_set n; init_errno := init_errno n;
     device_list_count := device_list_count n; device_list := device_list n;
     open_result := open_result n;
     set_auto_detach_errno := set_auto_detach_errno n;
     detach_errno := f;
     claim_errno := claim_errno n;
     interrupt_result := interrupt_result n;
     bulk_result := bulk_result n |}.

(** The errnos that [DetachKernelDriver] reports as success. *)
Definition detachTolerated (errno : Z) : bool :=
  (errno =? C.LIBUSB_SUCCESS) || (errno =? C.LIBUSB_ERROR_NOT_SUPPORTED)
  || (errno =? C.LIBUSB_ERROR_NOT_FOUND).

End Selection.

(** ** The display strings of constants.go *)

Module Names.
Import String DecimalString.
Local Open Scope string_scope.

Definition ClassPerInterface : Z := 0x00.
Definition ClassAudio : Z := 0x01.
Definition ClassComm : Z := 0x02.
Definition ClassPhysical : Z := 0x05.
Definition ClassImage : Z := 0x06.
Definition ClassPTP : Z := ClassImage.
Definition ClassPrinter : Z := 0x07.
Definition ClassMassStorage : Z := 0x08.
Definition ClassHub : Z := 0x09.
Definition ClassData : Z := 0x0a.
Definition ClassSmartCard : Z := 0x0b.
Definition ClassContentSecurity : Z := 0x0d.
Definition ClassVideo : Z := 0x0e.
Definition ClassPersonalHealthcare : Z := 0x0f.
Definition ClassAudioVideo : Z := 0x10.
Definition ClassBillboard : Z := 0x11.
Definition ClassUSBTypeCBridge : Z := 0x12.
Definition ClassDiagnosticDevice : Z := 0xdc.
Definition ClassWireless : Z := 0xe0.
Definition ClassMiscellaneous : Z := 0xef.
Definition ClassApplication : Z := 0xfe.
Definition ClassVendorSpec : Z := 0xff.

Definition DescriptorTypeDevice : Z := 0x1.
Definition DescriptorTypeConfig : Z := 0x2.
Definition DescriptorTypeString : Z := 0x3.
Definition DescriptorTypeInterface : Z := 0x4.
Definition DescriptorTypeEndpoint : Z := 0x5.
Definition DescriptorTypeHID : Z := 0x21.
Definition DescriptorTypeReport : Z := 0x22.
Definition DescriptorTypePhysical : Z := 0x23.
Definition DescriptorTypeHub : Z := 0x29.

Definition IsoSyncTypeNone : Z := Z.shiftl 0x0 2.
Definition IsoSyncTypeAsync : Z := Z.shiftl 0x1 2.
Definition IsoSyncTypeAdaptive : Z := Z.shiftl 0x2 2.
Definition IsoSyncTypeSync : Z := Z.shiftl 0x3 2.

(** the [iota] block *)
Definition UsageTypeUndefined : Z := 0.
Definition IsoUsageTypeData : Z := 1.
Definition IsoUsageTypeFeedback : Z := 2.
Definition IsoUsageTypeImplicit : Z := 3.
Definition InterruptUsageTypePeriodic : Z := 4.
Definition InterruptUsageTypeNotification : Z := 5.

Definition SpeedUnknown : Z := 0x0.
Definition SpeedLow : Z := 0x1.
Definition SpeedFull : Z := 0x2.
Definition SpeedHigh : Z := 0x3.
Definition SpeedSuper : Z := 0x4.

(** [strconv.Itoa] *)
Definition Itoa (i : Z) : string := NilZero.string_of_int (Z.to_int i).

(** A map literal keyed by numbers, and [m[k]] in its two-valued form. *)
Fixpoint lookup (m : list (Z * string)) (k : Z) : option string :=
  match m with
  | [] => None
  | (k', v) :: rest => if Z.eqb k' k then Some v else lookup rest k
  end.

(** [m[k]]: the zero value of [string] for a missing key. *)
Definition index (m : list (Z * string)) (k : Z) : string :=
  match lookup m k with Some v => v | None => "" end.

Definition classDescription : list (Z * string) :=
  [ (ClassPerInterface, "per-interface");
    (ClassAudio, "audio");
    (ClassComm, "communications");
    (Constants.ClassHID, "human interface device");
    (ClassPhysical, "physical");
    (ClassImage, "image");
    (ClassPrinter, "printer");
    (ClassMassStorage, "mass storage");
    (ClassHub, "hub");
    (ClassData, "data");
    (ClassSmartCard, "smart card");
    (ClassContentSecurity, "content security");
    (ClassVideo, "video");
    (ClassPersonalHealthcare, "personal healthcare");
    (ClassAudioVideo, "audio/video");
    (ClassBillboard, "billboard");
    (ClassUSBTypeCBridge, "USB type-C bridge");
    (ClassDiagnosticDevice, "diagnostic device");
    (ClassWireless, "wireless");
    (ClassMiscellaneous, "miscellaneous");
    (ClassApplication, "application-specific");
    (ClassVendorSpec, "vendor-specific") ].

(** [func (c Class) String() string] *)
Definition Class_String (c : Z) : string :=
  match lookup classDescription c with
  | Some d => d
  | None => Itoa c
  end.

(** [func (p Protocol) String() string] *)
Definition Protocol_String (p : Z) : string := Itoa p.

Definition descriptorTypeDescription : list (Z * string) :=
  [ (DescriptorTypeDevice, "device");
    (DescriptorTypeConfig, "configuration");
    (DescriptorTypeString, "string");
    (DescriptorTypeInterface, "interface");
    (DescriptorTypeEndpoint, "endpoint");
    (DescriptorTypeHID, "HID");
    (DescriptorTypeReport, "HID report");
    (DescriptorTypePhysical, "physical");
    (DescriptorTypeHub, "hub") ].

Definition DescriptorType_String (dt : Z) : string :=
  index descriptorTypeDescription dt.

Definition EndpointDirectionIn : bool := true.
Definition EndpointDirectionOut : bool := false.

(** the two-entry map keyed by the boolean direction *)
Definition EndpointDirection_String (ed : bool) : string :=
  if ed then "IN" else "OUT".

Definition transferTypeDescription : list (Z * string) :=
  [ (Constants.TransferTypeControl, "control");
    (Constants.TransferTypeIsochronous, "isochronous");
    (Constants.TransferTypeBulk, "bulk");
    (Constants.TransferTypeInterrupt, "interrupt") ].

Definition TransferType_String (tt : Z) : string :=
  index transferTypeDescription tt.

Definition isoSyncTypeDescription : list (Z * string) :=
  [ (IsoSyncTypeNone, "unsynchronized");
    (IsoSyncTypeAsync, "asynchronous");
    (IsoSyncTypeAdaptive, "adaptive");
    (IsoSyncTypeSync, "synchronous") ].

Definition IsoSyncType_String (ist : Z) : string :=
  index isoSyncTypeDescription ist.

Definition usageTypeDescription : list (Z * string) :=
  [ (UsageTypeUndefined, "undefined usage");
    (IsoUsageTypeData, "data");
    (IsoUsageTypeFeedback, "feedback");
    (IsoUsageTypeImplicit, "implicit data");
    (InterruptUsageTypePeriodic, "periodic");
    (InterruptUsageTypeNotification, "notification") ].

Definition UsageType_String (ut : Z) : string :=
  index usageTypeDescription ut.

Definition deviceSpeedDescription : list (Z * string) :=
  [ (SpeedUnknown, "unknown");
    (SpeedLow, "low");
    (SpeedFull, "full");
    (SpeedHigh, "high");
    (SpeedSuper, "super") ].

Definition Speed_String (sp : Z) : string :=
  index deviceSpeedDescription sp.

(** The values of a [uint8]. *)
Definition bytes : list Z := map Z.of_nat (seq 0 256).

End Names.

(** ** Shapes of native calls and of discovery errors *)

Module Shapes.

(** A query or a retain on device [d], as the device loop makes them. *)
Definition deviceCall (d : nat) (c : call) : Prop :=
  match c with
  | get_device_descriptor d' => d' = d
  | get_config_descriptor d' _ => d' = d
  | libusb_ref_device d' => d' = d
  | get_port_number d' => d' = d
  | _ => False
  end.

(** The state gains calls only, each about one of the devices [devs]. *)
Definition touches (devs : list libusb_device) (s s' : Discovery.state) : Prop :=
  exists dc,
    Discovery.calls s' = Discovery.calls s ++ dc
    /\ Forall (fun c => exists dev, In dev devs /\ deviceCall (ptr dev) c) dc.

(** The descriptor of the device at index [k] of the list could not be read. *)
Definition descriptorFailure (n : native) (e : error) : Prop :=
  exists k dev e0,
    nth_error (Discovery.devices n) k = Some dev
    /\ fromLibusbErrno (fst (libusb_get_device_descriptor dev)) = Some e0
    /\ e = ErrDeviceDescriptor k e0.

(** Configuration [c] of the device at index [k] could not be read; the
    device had passed the filters and is not of class HID. *)
Definition configFailure (n : native) (vendorID productID : Z) (e : error) : Prop :=
  exists k dev c e0,
    nth_error (Discovery.devices n) k = Some dev
    /\ (let desc := snd (libusb_get_device_descriptor dev) in
        Discovery.filteredOut vendorID productID desc = false
        /\ bDeviceClass desc <> Constants.ClassHID
        /\ (c < Z.to_nat (bNumConfigurations desc))%nat)
    /\ fromLibusbErrno (fst (libusb_get_config_descriptor dev c)) = Some e0
    /\ e = ErrConfigDescriptor k c e0.

(** The same native layer, with another answer to the automatic detach. *)
Definition withAutoDetach (n : native) (f : option handle -> Z -> Z) : native :=
  {| ctx_set := ctx_set n; init_errno := init_errno n;
     device_list_count := device_list_count n; device_list := device_list n;
     open_result := open_result n;
     set_auto_detach_errno := f;
     detach_errno := detach_errno n;
     claim_errno := claim_errno n;
     interrupt_result := interrupt_result n;
     bulk_result := bulk_result n |}.

(** The handle struct that [open] builds around a record and a native handle. *)
Definition opened (i : DeviceInfo) (device : nat) (h : option handle)
    : Lifecycle.libusbDeviceT :=
  {| Lifecycle.info := Lifecycle.withDevice i device; Lifecycle.handle_ := h;
     Lifecycle.writeTimeout := 0; Lifecycle.readTimeout := 0 |}.

(** The one native call of a transfer of kind [k] for a handle whose
    timeout is [timeout]: the length and the timeout arrive converted. *)
Definition transferCall (k : Z) (h : option handle) (ep : Z) (b : list Z) (timeout : Z)
    : call :=
  if k =? C.LIBUSB_TRANSFER_TYPE_INTERRUPT
  then libusb_interrupt_transfer h ep b (C.int (Z.of_nat (length b))) (C.uint timeout)
  else libusb_bulk_transfer h ep b (C.int (Z.of_nat (length b))) (C.uint timeout).

(** What the native layer answers to that call. *)
Definition transferResult (n : native) (k : Z) (h : option handle) (ep : Z)
    (b : list Z) (timeout : Z) : Z * Z :=
  if k =? C.LIBUSB_TRANSFER_TYPE_INTERRUPT
  then interrupt_result n h ep b (C.uint timeout)
  else bulk_result n h ep b (C.uint timeout).

(** The same native layer, with another answer to the native open. *)
Definition withOpenResult (n : native) (f : nat -> Z * option handle) : native :=
  {| ctx_set := ctx_set n; init_errno := init_errno n;
     device_list_count := device_list_count n; device_list := device_list n;
     open_result := f;
     set_auto_detach_errno := set_auto_detach_errno n;
     detach_errno := detach_errno n;
     claim_errno := claim_errno n;
     interrupt_result := interrupt_result n;
     bulk_result := bulk_result n |}.

(** The timeout argument of a transfer call. *)
Definition callTimeout (c : call) : option Z :=
  match c with
  | libusb_interrupt_transfer _ _ _ _ t => Some t
  | libusb_bulk_transfer _ _ _ _ t => Some t
  | _ => None
  end.

(** What [Read] and [Write] return for the answer of the native call. *)
Definition transferReturn (wrap : error -> error) (answer : Z * Z)
    : outcome (Z * option error) :=
  match fromLibusbErrno (fst answer) with
  | Some err => Ret (0, Some (wrap err))
  | None => Ret (snd answer, None)
  end.

(** The errnos that [SetAutoDetach] reports as success. *)
Definition autoDetachTolerated (errno : Z) : bool :=
  (errno =? C.LIBUSB_SUCCESS) || (errno =? C.LIBUSB_ERROR_NOT_SUPPORTED).

End Shapes.

(** ** More sample hardware *)

Module MoreSamples.
Import Samples.

(** A device whose descriptor cannot be read. *)
Definition unreadable : libusb_device :=
  {| ptr := 2;
     libusb_get_device_descriptor :=
       (-1, {| idVendor := 0; idProduct := 0; bDeviceClass := 0;
               bDeviceSubClass := 0; bDeviceProtocol := 0;
               bNumConfigurations := 0 |});
     libusb_get_config_descriptor := fun _ => (C.LIBUSB_ERROR_NOT_FOUND, noConfig);
     libusb_get_port_number := 0 |}.

(** The scan finds two records, then fails on the second device. *)
Definition midScanFailure : native := world [twoAltDevice; unreadable] 0.

(** No context yet, and creating one fails. *)
Definition noContext : native :=
  {| ctx_set := false; init_errno := -99;
     device_list_count := 1;
     device_list := [twoAltDevice];
     open_result := fun d => (0, Some d);
     set_auto_detach_errno := fun _ _ => 0;
     detach_errno := fun _ _ => 0;
     claim_errno := fun _ _ => 0;
     interrupt_result := fun _ _ b _ => (0, Z.of_nat (length b));
     bulk_result := fun _ _ b _ => (0, Z.of_nat (length b)) |}.

(** Every transfer fails with a timeout (LIBUSB_ERROR_TIMEOUT). *)
Definition timingOut : native :=
  {| ctx_set := true; init_errno := 0;
     device_list_count := 1;
     device_list := [twoAltDevice];
     open_result := fun d => (0, Some d);
     set_auto_detach_errno := fun _ _ => -1;
     detach_errno := fun _ _ => 0;
     claim_errno := fun _ _ => 0;
     interrupt_result := fun _ _ _ _ => (-7, 0);
     bulk_result := fun _ _ _ _ => (-7, 0) |}.

(** A handle around a record whose kinds were never filled in. *)
Definition kindless : Lifecycle.libusbDeviceT :=
  {| Lifecycle.info :=
       Discovery.mkDeviceInfo 0 twoAltDevice
         (snd (libusb_get_device_descriptor twoAltDevice)) 0 bulkPair Discovery.locals0;
     Lifecycle.handle_ := Some 1%nat;
     Lifecycle.writeTimeout := 0; Lifecycle.readTimeout := 0 |}.

End MoreSamples.

(** * Proofs *)

(** ** The endpoint scan *)

Module ScanFacts.
Import Discovery Matching.

Lemma land_bit7 (a : Z) :
  Z.land a Constants.endpointDirectionMask = Constants.endpointDirectionMask
  <-> Z.testbit a 7 = true.
Proof.
  change Constants.endpointDirectionMask with (2 ^ 7).
  split.
  - intros H.
    assert (B : Z.testbit (Z.land a (2 ^ 7)) 7 = true)
      by (rewrite H; apply Z.pow2_bits_true; lia).
    rewrite Z.land_spec in B. apply andb_true_iff in B. tauto.
  - intros H. apply Z.bits_inj'. intros k Hk.
    rewrite Z.land_spec, Z.pow2_bits_eqb by lia.
    destruct (Z.eqb_spec 7 k) as [<- | _].
    + now rewrite H.
    + apply andb_false_r.
Qed.

Lemma endpointIn_directionIn (e : endpoint_descriptor) :
  endpointIn e = directionIn e.
Proof.
  unfold endpointIn, directionIn, C.LIBUSB_ENDPOINT_IN.
  destruct (Z.testbit (bEndpointAddress e) 7) eqn:B.
  - apply Z.eqb_eq, land_bit7, B.
  - apply Z.eqb_neq. intros H. apply land_bit7 in H. congruence.
Qed.

Lemma skipEndpoint_false (e : endpoint_descriptor) :
  skipEndpoint e = false <-> bulkOrInterrupt e.
Proof.
  unfold skipEndpoint, bulkOrInterrupt,
    C.LIBUSB_TRANSFER_TYPE_INTERRUPT, C.LIBUSB_TRANSFER_TYPE_BULK.
  destruct (Z.eqb_spec (bmAttributes e) Constants.TransferTypeInterrupt);
    destruct (Z.eqb_spec (bmAttributes e) Constants.TransferTypeBulk);
    cbn; intuition congruence.
Qed.

Lemma candidateIn_iff (e : endpoint_descriptor) :
  candidateIn e = true <-> bulkOrInterrupt e /\ directionIn e = true.
Proof.
  unfold candidateIn. rewrite andb_true_iff, negb_true_iff,
    skipEndpoint_false, endpointIn_directionIn. tauto.
Qed.

Lemma candidateOut_iff (e : endpoint_descriptor) :
  candidateOut e = true <-> bulkOrInterrupt e /\ directionIn e = false.
Proof.
  unfold candidateOut. rewrite andb_true_iff, !negb_true_iff,
    skipEndpoint_false, endpointIn_directionIn. tauto.
Qed.

(** The step in terms of the two candidate tests. *)
Lemma endpointStep_cases (l : locals) (e : endpoint_descriptor) :
  endpointStep l e =
    if candidateIn e then
      {| reader := Some (bEndpointAddress e); writer := writer l;
         readerTT := bmAttributes e; writerTT := writerTT l |}
    else if candidateOut e then
      {| reader := reader l; writer := Some (bEndpointAddress e);
         readerTT := readerTT l; writerTT := bmAttributes e |}
    else l.
Proof.
  unfold endpointStep, candidateIn, candidateOut.
  destruct (skipEndpoint e), (endpointIn e); reflexivity.
Qed.

(** Last write wins: each slot holds the last candidate of its direction
    in scan order, or what it held before when there is none. *)
Lemma scan_last (ends : list endpoint_descriptor) (l : locals) :
  let r := fold_left endpointStep ends l in
  (reader r, readerTT r) =
    match find candidateIn (rev ends) with
    | Some e => (Some (bEndpointAddress e), bmAttributes e)
    | None => (reader l, readerTT l)
    end
  /\ (writer r, writerTT r) =
    match find candidateOut (rev ends) with
    | Some e => (Some (bEndpointAddress e), bmAttributes e)
    | None => (writer l, writerTT l)
    end.
Proof.
  induction ends as [| e ends IH] using rev_ind; cbn.
  - split; reflexivity.
  - rewrite fold_left_app, rev_app_distr. cbn [fold_left rev app find].
    destruct IH as [IHr IHw].
    rewrite endpointStep_cases.
    assert (X : candidateIn e = true -> candidateOut e = false).
    { unfold candidateIn, candidateOut.
      destruct (skipEndpoint e), (endpointIn e); cbn; congruence. }
    destruct (candidateIn e) eqn:Ei.
    + rewrite (X eq_refl). cbn. split; [reflexivity | assumption].
    + destruct (candidateOut e); cbn; split; assumption || reflexivity.
Qed.

Lemma find_rev_some {A} (f : A -> bool) (l : list A) :
  (exists x, In x l /\ f x = true) <-> find f (rev l) <> None.
Proof.
  split.
  - intros (x & Hin & Hf) Hnone.
    apply in_rev in Hin.
    pose proof (find_none f (rev l) Hnone x Hin). congruence.
  - destruct (find f (rev l)) as [x |] eqn:E; [| congruence].
    intros _. apply find_some in E. exists x. split; [| tauto].
    apply in_rev. tauto.
Qed.

Lemma scan_reader_some (alt : interface_descriptor) :
  reader (scanEndpoints (endpoint alt)) <> None <-> hasIn alt.
Proof.
  unfold scanEndpoints, hasIn.
  destruct (scan_last (endpoint alt) locals0) as [Hr _]. cbn in Hr.
  setoid_rewrite <- candidateIn_iff.
  rewrite (find_rev_some candidateIn).
  destruct (find candidateIn (rev (endpoint alt))); inversion Hr; cbn;
    split; congruence.
Qed.

Lemma scan_writer_some (alt : interface_descriptor) :
  writer (scanEndpoints (endpoint alt)) <> None <-> hasOut alt.
Proof.
  unfold scanEndpoints, hasOut.
  destruct (scan_last (endpoint alt) locals0) as [_ Hw]. cbn in Hw.
  setoid_rewrite <- candidateOut_iff.
  rewrite (find_rev_some candidateOut).
  destruct (find candidateOut (rev (endpoint alt))); inversion Hw; cbn;
    split; congruence.
Qed.

(** A slot that is filled holds one of the two accepted codes. *)
Lemma scan_kinds (ends : list endpoint_descriptor) :
  let r := scanEndpoints ends in
  (reader r <> None ->
     readerTT r = Constants.TransferTypeBulk
     \/ readerTT r = Constants.TransferTypeInterrupt)
  /\ (writer r <> None ->
     writerTT r = Constants.TransferTypeBulk
     \/ writerTT r = Constants.TransferTypeInterrupt).
Proof.
  unfold scanEndpoints.
  destruct (scan_last ends locals0) as [Hr Hw]. cbn in Hr, Hw. cbn.
  split.
  - destruct (find candidateIn (rev ends)) as [e |] eqn:E;
      injection Hr as H1 H2; [| congruence].
    intros _. apply find_some in E. destruct E as [_ E].
    apply candidateIn_iff in E. rewrite H2. apply E.
  - destruct (find candidateOut (rev ends)) as [e |] eqn:E;
      injection Hw as H1 H2; [| congruence].
    intros _. apply find_some in E. destruct E as [_ E].
    apply candidateOut_iff in E. rewrite H2. apply E.
Qed.

End ScanFacts.

(** ** The loops of getAllDevices *)

Module DiscoveryFacts.
Import Discovery Matching Refcount Progress ScanFacts.

Lemma refs_app d a b : refs d (a ++ b) = (refs d a + refs d b)%nat.
Proof. unfold refs. now rewrite filter_app, length_app. Qed.

Lemma unrefs_app d a b : unrefs d (a ++ b) = (unrefs d a + unrefs d b)%nat.
Proof. unfold unrefs. now rewrite filter_app, length_app. Qed.

Lemma recordsOn_app d a b :
  recordsOn d (a ++ b) = (recordsOn d a + recordsOn d b)%nat.
Proof. unfold recordsOn. now rewrite filter_app, length_app. Qed.

Lemma ext_refl s : ext (fun _ => False) s s.
Proof.
  exists [], []. rewrite !app_nil_r. repeat split; tauto.
Qed.

Lemma ext_trans P Q s s' s'' :
  ext P s s' -> ext Q s' s'' -> ext (fun i => P i \/ Q i) s s''.
Proof.
  intros (di & dc & Hi & Hc & Hr & Hu & HP) (di' & dc' & Hi' & Hc' & Hr' & Hu' & HQ).
  exists (di ++ di'), (dc ++ dc').
  rewrite Hi', Hi, Hc', Hc, !app_assoc. repeat split; try tauto.
  - intros d. now rewrite refs_app, recordsOn_app, Hr, Hr'.
  - intros d. now rewrite unrefs_app, Hu, Hu'.
  - rewrite in_app_iff, HP, HQ. tauto.
  - rewrite in_app_iff, HP, HQ. tauto.
Qed.

Lemma ext_iff P Q s s' :
  (forall i, P i <-> Q i) -> ext P s s' -> ext Q s s'.
Proof.
  intros H (di & dc & Hi & Hc & Hr & Hu & HP).
  exists di, dc. repeat split; try assumption; intros X; apply H, HP, X || apply HP, H, X.
Qed.

(** A call that neither retains nor releases leaves the records alone. *)
Lemma ext_emit s c :
  (forall d, isRef d c = false) -> (forall d, isUnref d c = false) ->
  ext (fun _ => False) s (emit s [c]).
Proof.
  intros Hr Hu. exists [], [c]. cbn. rewrite app_nil_r.
  split; [reflexivity |]. split; [reflexivity |].
  split; [| split]; [| | tauto].
  - intros d. unfold refs. cbn. now rewrite Hr.
  - intros d. unfold unrefs. cbn. now rewrite Hu.
Qed.

Lemma altStep_cases vid dev desc k s alt :
  (altEmits alt
   /\ altStep vid dev desc k s alt =
        {| infos := infos s ++ [mkDeviceInfo vid dev desc k alt (scanEndpoints (endpoint alt))];
           calls := calls s ++ [libusb_ref_device (ptr dev); get_port_number (ptr dev)] |})
  \/ (~ altEmits alt /\ altStep vid dev desc k s alt = s).
Proof.
  unfold altStep, altEmits, C.LIBUSB_CLASS_HID.
  pose proof (scan_reader_some alt) as Hr. pose proof (scan_writer_some alt) as Hw.
  destruct (Z.eqb_spec (bInterfaceClass alt) Constants.ClassHID) as [E | E].
  - right. tauto.
  - destruct (reader (scanEndpoints (endpoint alt))) as [r |].
    + destruct (writer (scanEndpoints (endpoint alt))) as [w |].
      * left. split; [| reflexivity].
        repeat split; [assumption | apply Hr | apply Hw]; discriminate.
      * right. split; [| reflexivity]. intros (_ & _ & H). apply Hw in H. congruence.
    + right. split; [| reflexivity]. intros (_ & H & _). apply Hr in H. congruence.
Qed.

Lemma altStep_ext vid dev desc k s alt :
  ext (fromAlt vid dev desc k alt) s (altStep vid dev desc k s alt).
Proof.
  destruct (altStep_cases vid dev desc k s alt) as [[He ->] | [He ->]].
  - exists [mkDeviceInfo vid dev desc k alt (scanEndpoints (endpoint alt))],
      [libusb_ref_device (ptr dev); get_port_number (ptr dev)].
    cbn [infos calls].
    split; [reflexivity |]. split; [reflexivity |].
    split; [| split].
    + intros d. unfold refs, recordsOn. cbn. now destruct (Nat.eqb (ptr dev) d).
    + reflexivity.
    + intros i. split.
      * intros [<- | []]. now split.
      * intros [_ ->]. now left.
  - eapply ext_iff; [| apply ext_refl].
    unfold fromAlt. tauto.
Qed.

Lemma fold_altStep_ext vid dev desc k alts s :
  ext (fun i => exists alt, In alt alts /\ fromAlt vid dev desc k alt i)
    s (fold_left (altStep vid dev desc k) alts s).
Proof.
  revert s. induction alts as [| alt alts IH]; intros s; cbn [fold_left].
  - eapply ext_iff; [| apply ext_refl]. intros i. split; [tauto |].
    intros (alt & [] & _).
  - eapply ext_iff; [| eapply ext_trans; [apply altStep_ext | apply IH]].
    intros i. cbn. split.
    + intros [H | (a & Ha & H)]; eauto.
    + intros (a & [<- | Ha] & H); eauto.
Qed.

Lemma ifaceLoop_ext vid dev desc k ifaces s :
  ext (fromInterfaces vid dev desc k ifaces) s (ifaceLoop vid dev desc k ifaces s).
Proof.
  revert k s. induction ifaces as [| iface rest IH]; intros k s; cbn [ifaceLoop].
  - eapply ext_iff; [| apply ext_refl]. intros i. split; [tauto |].
    intros (j & f & a & H & _). destruct j; discriminate.
  - assert (E : forall (f : state -> interface_descriptor -> state) l s0,
               match l with [] => s0 | a :: r => fold_left f (a :: r) s0 end
               = fold_left f l s0)
      by (intros f l s0; destruct l; reflexivity).
    rewrite E.
    pose proof (fold_altStep_ext vid dev desc k (altsetting iface) s) as X.
    eapply ext_iff; [| eapply ext_trans; [apply X | apply IH]].
    intros i. unfold fromInterfaces. split.
    + intros [(a & Ha & H) | (j & f & a & Hj & Ha & H)].
      * exists 0%nat, iface, a. rewrite Nat.add_0_r. auto.
      * exists (S j), f, a. rewrite Nat.add_succ_r. auto.
    + intros (j & f & a & Hj & Ha & H). destruct j as [| j]; cbn in Hj.
      * injection Hj as <-. rewrite Nat.add_0_r in H. left. eauto.
      * right. exists j, f, a. rewrite Nat.add_succ_r in H. auto.
Qed.

Lemma cfgLoop_ext vid devnum dev desc todo c s s' :
  cfgLoop vid devnum dev desc todo c s = (s', None) ->
  ext (fromConfigs vid dev desc c todo) s s'.
Proof.
  revert c s. induction todo as [| todo IH]; intros c s; cbn [cfgLoop].
  - intros [= <-]. eapply ext_iff; [| apply ext_refl]. intros i. split; [tauto |].
    intros (j & Hj & _). lia.
  - destruct (libusb_get_config_descriptor dev c) as [errno cfg] eqn:E.
    destruct (fromLibusbErrno errno); [discriminate |].
    intros H. apply IH in H.
    eapply ext_iff;
      [| eapply ext_trans;
          [eapply ext_trans; [apply (ext_emit s (get_config_descriptor (ptr dev) c))
                             | apply ifaceLoop_ext] | apply H]];
      try reflexivity.
    intros i. unfold fromConfigs. split.
    + intros [[[] | H0] | (j & Hj & Hi)].
      * exists 0%nat. rewrite Nat.add_0_r, E. split; [lia | exact H0].
      * exists (S j). rewrite Nat.add_succ_r. split; [lia | exact Hi].
    + intros (j & Hj & Hi). destruct j as [| j].
      * left. right. rewrite Nat.add_0_r, E in Hi. exact Hi.
      * right. exists j. rewrite Nat.add_succ_r in Hi. split; [lia | exact Hi].
Qed.

Lemma devLoop_ext vid pid devnum devs s s' :
  devLoop vid pid devnum devs s = (s', None) ->
  ext (fun i => exists dev, In dev devs /\ fromDevice vid pid dev i) s s'.
Proof.
  revert devnum s s'.
  induction devs as [| dev rest IH]; intros devnum s s'; cbn [devLoop].
  - intros [= <-]. eapply ext_iff; [| apply ext_refl]. intros i. split; [tauto |].
    intros (dev & [] & _).
  - destruct (libusb_get_device_descriptor dev) as [errno desc] eqn:E.
    destruct (fromLibusbErrno errno); [discriminate |].
    assert (D : ext (fun _ => False) s (emit s [get_device_descriptor (ptr dev)]))
      by (apply ext_emit; reflexivity).
    assert (skip : forall s1,
      ~ (filteredOut vid pid desc = false /\ bDeviceClass desc <> Constants.ClassHID) ->
      devLoop vid pid (S devnum) rest (emit s [get_device_descriptor (ptr dev)]) = (s1, None) ->
      ext (fun i => exists dev0, In dev0 (dev :: rest) /\ fromDevice vid pid dev0 i) s s1).
    { intros s1 Hno H. apply IH in H.
      eapply ext_iff; [| eapply ext_trans; [apply D | apply H]].
      intros i. split.
      - intros [[] | (d & Hd & Hi)]. exists d. split; [now right | exact Hi].
      - intros (d & [<- | Hd] & Hi); [| right; eauto].
        unfold fromDevice in Hi. rewrite E in Hi. cbn in Hi. tauto. }
    destruct (filteredOut vid pid desc) eqn:F.
    { intros H. apply skip; [intros [X _]; discriminate | exact H]. }
    unfold C.LIBUSB_CLASS_HID.
    destruct (Z.eqb_spec (bDeviceClass desc) Constants.ClassHID) as [Hc | Hc].
    { intros H. apply skip; [tauto | exact H]. }
    destruct (cfgLoop vid devnum dev desc (Z.to_nat (bNumConfigurations desc)) 0
                (emit s [get_device_descriptor (ptr dev)])) as [s2 [err |]] eqn:L;
      [discriminate |].
    intros H. apply IH in H. apply cfgLoop_ext in L.
    eapply ext_iff; [| eapply ext_trans; [eapply ext_trans; [apply D | apply L] | apply H]].
    intros i. split.
    + intros [[[] | Hi] | (d & Hd & Hi)].
      * exists dev. split; [now left |]. unfold fromDevice. rewrite E. cbn. auto.
      * exists d. split; [now right | exact Hi].
    + intros (d & [<- | Hd] & Hi).
      * left. right. unfold fromDevice in Hi. rewrite E in Hi. cbn in Hi. tauto.
      * right. eauto.
Qed.

(** What a call that returns no error has done. *)
Lemma getAllDevices_ok n vid pid l cs :
  getAllDevices n vid pid = (l, None, cs) ->
  exists dc,
    cs = prologue n ++ dc
           ++ map (fun i => libusb_unref_device (libusbDevice i)) l
           ++ [libusb_free_device_list None 1]
    /\ (forall d, refs d dc = recordsOn d l)
    /\ (forall d, unrefs d dc = 0%nat)
    /\ (forall i, In i l <-> emittedFrom n vid pid i).
Proof.
  unfold getAllDevices, prologue.
  destruct (if ctx_set n then ([], None) else ([libusb_init], fromLibusbErrno (init_errno n)))
    as [c0 [err |]] eqn:I; [discriminate |].
  assert (Hc0 : c0 = if ctx_set n then [] else [libusb_init])
    by (destruct (ctx_set n); inversion I; reflexivity).
  destruct (device_list_count n <? 0); [discriminate |].
  destruct (devLoop vid pid 0 (devices n) _) as [s [err |]] eqn:L; [discriminate |].
  intros [= <- <-]. apply devLoop_ext in L.
  destruct L as (di & dc & Hi & Hc & Hr & Hu & HP). cbn in Hi, Hc.
  exists dc. rewrite Hc, Hi, Hc0, <- !app_assoc. repeat split; auto.
  - apply HP.
  - apply HP.
Qed.

End DiscoveryFacts.

(** ** Claims about discovery *)

Module DiscoveryClaims.
Import Discovery Matching Refcount Progress ScanFacts DiscoveryFacts.

Lemma unrefs_released d (l : list DeviceInfo) :
  unrefs d (map (fun i => libusb_unref_device (libusbDevice i)) l) = recordsOn d l.
Proof.
  unfold unrefs, recordsOn.
  induction l as [| i l IH]; cbn; [reflexivity |].
  destruct (Nat.eqb (libusbDevice i) d); cbn; now rewrite IH.
Qed.

Lemma refs_released d (l : list DeviceInfo) :
  refs d (map (fun i => libusb_unref_device (libusbDevice i)) l) = 0%nat.
Proof. unfold refs. induction l as [| i l IH]; cbn; auto. Qed.

(** Every record that discovery emits has its pointer fields filled in, and
    each recorded transfer kind is one of the two accepted codes. *)
Lemma emitted_fields n vid pid i :
  emittedFrom n vid pid i ->
  exists port r w rk wk,
    libusbPort i = Some port
    /\ libusbReader i = Some r /\ libusbWriter i = Some w
    /\ readerTransferType i = Some rk /\ writerTransferType i = Some wk
    /\ (rk = Constants.TransferTypeBulk \/ rk = Constants.TransferTypeInterrupt)
    /\ (wk = Constants.TransferTypeBulk \/ wk = Constants.TransferTypeInterrupt).
Proof.
  intros (dev & _ & _ & _ & j & _ & k & iface & alt & _ & _ & (_ & Hin & Hout) & ->).
  apply scan_reader_some in Hin. apply scan_writer_some in Hout.
  destruct (scan_kinds (endpoint alt)) as [Kr Kw].
  cbn.
  destruct (reader (scanEndpoints (endpoint alt))) as [r |]; [| congruence].
  destruct (writer (scanEndpoints (endpoint alt))) as [w |]; [| congruence].
  exists (libusb_get_port_number dev), r, w,
    (readerTT (scanEndpoints (endpoint alt))), (writerTT (scanEndpoints (endpoint alt))).
  repeat split; auto.
Qed.

(** C1, what the code does against it: when [getAllDevices] returns its
    records without an error, it has made, for every device, exactly as many
    retain calls as it returns records carrying that device (so none for a
    device without a record), all of them before the result set is
    complete; it then makes one release call per returned record, on that
    record's device, and neither retains nor releases anything afterwards.
    The retention taken for a record is thus given up again before the
    record reaches the caller, although the function is documented to retain
    one reference for every matched device, and [open] and [Close] go on to
    release it. *)
Theorem enumerate_retentions_are_transient n vendorID productID l cs :
  getAllDevices n vendorID productID = (l, None, cs) ->
  exists before after,
    cs = before ++ map (fun i => libusb_unref_device (libusbDevice i)) l ++ after
    /\ (forall d, refs d before = recordsOn d l /\ unrefs d before = 0%nat)
    /\ (forall d, refs d after = 0%nat /\ unrefs d after = 0%nat)
    /\ (forall d, refs d cs = recordsOn d l /\ unrefs d cs = recordsOn d l).
Proof.
  intros H. apply getAllDevices_ok in H.
  destruct H as (dc & -> & Hr & Hu & _).
  exists (prologue n ++ dc), [libusb_free_device_list None 1].
  assert (P : forall d, refs d (prologue n) = 0%nat /\ unrefs d (prologue n) = 0%nat)
    by (intros d; unfold prologue; destruct (ctx_set n); split; reflexivity).
  split; [now rewrite <- app_assoc |].
  split; [| split].
  - intros d. rewrite refs_app, unrefs_app, Hr, Hu. destruct (P d) as [-> ->]. auto.
  - intros d. split; reflexivity.
  - intros d. rewrite !refs_app, !unrefs_app, Hr, Hu, refs_released, unrefs_released.
    destruct (P d) as [-> ->]. cbn. lia.
Qed.

Lemma enumerate_retentions_are_transient_witness :
  exists before after,
    snd (getAllDevices Samples.twoAltWorld 0 0) =
      before
      ++ map (fun i => libusb_unref_device (libusbDevice i))
           (fst (fst (getAllDevices Samples.twoAltWorld 0 0)))
      ++ after
    /\ refs 1 before = 2%nat.
Proof.
  destruct (enumerate_retentions_are_transient Samples.twoAltWorld 0 0
              (fst (fst (getAllDevices Samples.twoAltWorld 0 0)))
              (snd (getAllDevices Samples.twoAltWorld 0 0)) eq_refl)
    as (before & after & E & B & _).
  exists before, after. split; [exact E |]. exact (proj1 (B 1%nat)).
Defined.

(** C1, at the failing input: a device with two matching alt-settings
    yields two records; the two retain calls made for them are undone by two
    release calls, and one reference is outstanding on the device after the
    call, not two. *)
Lemma reference_balance_fails :
  length (fst (fst (getAllDevices Samples.twoAltWorld 0 0))) = 2%nat
  /\ refs 1 (snd (getAllDevices Samples.twoAltWorld 0 0)) = 2%nat
  /\ unrefs 1 (snd (getAllDevices Samples.twoAltWorld 0 0)) = 2%nat
  /\ outstanding (snd (getAllDevices Samples.twoAltWorld 0 0)) 1 = 1
  /\ ~ reference_balance Samples.twoAltWorld 0 0.
Proof.
  repeat (split; [reflexivity |]).
  intros H. specialize (H 1%nat). vm_compute in H. discriminate.
Qed.

(** C3, as the code has it: a call that returns no error returns exactly the
    records of the alt-settings found under a listed device that passes the
    vendor/product filters and is not of class HID, whose interface class is
    not HID, and which hold at least one IN endpoint and at least one OUT
    endpoint whose attributes byte is the bulk or the interrupt code; the
    two endpoints need not be of the same kind.  Every returned record has
    its IN and OUT endpoint fields populated, each with a recorded kind that
    is bulk or interrupt. *)
Theorem enumerate_matching n vendorID productID l cs :
  getAllDevices n vendorID productID = (l, None, cs) ->
  (forall i, In i l <-> emittedFrom n vendorID productID i)
  /\ (forall i, In i l ->
        exists r w rk wk,
          libusbReader i = Some r /\ libusbWriter i = Some w
          /\ readerTransferType i = Some rk /\ writerTransferType i = Some wk
          /\ (rk = Constants.TransferTypeBulk \/ rk = Constants.TransferTypeInterrupt)
          /\ (wk = Constants.TransferTypeBulk \/ wk = Constants.TransferTypeInterrupt)).
Proof.
  intros H. apply getAllDevices_ok in H. destruct H as (dc & _ & _ & _ & HP).
  split; [exact HP |].
  intros i Hi. apply HP, emitted_fields in Hi.
  destruct Hi as (port & r & w & rk & wk & _ & Hi). exists r, w, rk, wk. exact Hi.
Qed.

Lemma enumerate_matching_witness :
  emittedFrom Samples.mixedWorld 0 0
    (mkDeviceInfo 0 Samples.mixedDevice
       (snd (libusb_get_device_descriptor Samples.mixedDevice)) 0
       Samples.mixedPair (scanEndpoints (endpoint Samples.mixedPair))).
Proof.
  apply (proj1 (enumerate_matching Samples.mixedWorld 0 0
                  (fst (fst (getAllDevices Samples.mixedWorld 0 0)))
                  (snd (getAllDevices Samples.mixedWorld 0 0)) eq_refl)).
  left. reflexivity.
Defined.

(** C3 as stated fails: an alt-setting with a bulk IN and an interrupt OUT
    endpoint has no IN/OUT pair of one kind, yet its record is emitted, with
    unequal kinds. *)
Lemma mixed_kinds_are_emitted :
  ~ sameKindPair Samples.mixedPair
  /\ exists i,
       fst (fst (getAllDevices Samples.mixedWorld 0 0)) = [i]
       /\ InterfaceAlternate i = bAlternateSetting Samples.mixedPair
       /\ readerTransferType i = Some Constants.TransferTypeBulk
       /\ writerTransferType i = Some Constants.TransferTypeInterrupt.
Proof.
  split.
  - intros (ein & eout & Hin & Hout & Din & Dout & _ & K).
    cbn in Hin, Hout.
    destruct Hin as [<- | [<- | []]]; destruct Hout as [<- | [<- | []]];
      vm_compute in Din, Dout, K; discriminate.
  - eexists. repeat split.
Qed.



(** C5: when the context is in place and the native listing call answers a
    negative count, [getAllDevices] returns the [libusbError] of that count
    together with the records produced so far, of which there are none: the
    returned slice is empty (Go's nil slice), and no device was looked at or
    retained before the return. *)
Theorem listing_failure_is_surfaced n vendorID productID :
  ctx_set n = true \/ fromLibusbErrno (init_errno n) = None ->
  device_list_count n < 0 ->
  fst (getAllDevices n vendorID productID)
    = ([], Some (libusbError (device_list_count n)))
  /\ snd (getAllDevices n vendorID productID)
    = prologue n ++ [libusb_free_device_list None 1]
  /\ forall d, refs d (snd (getAllDevices n vendorID productID)) = 0%nat.
Proof.
  intros Hctx Hneg. unfold getAllDevices, prologue.
  assert (I : exists c0,
            (if ctx_set n then ([], None)
             else ([libusb_init], fromLibusbErrno (init_errno n))) = (c0, None)
            /\ c0 = if ctx_set n then [] else [libusb_init]).
  { destruct (ctx_set n); [eexists; split; reflexivity |].
    destruct Hctx as [? | ->]; [discriminate |]. eexists; split; reflexivity. }
  destruct I as (c0 & -> & ->).
  apply Z.ltb_lt in Hneg. rewrite Hneg. cbn [fst snd].
  repeat split. intros d. rewrite <- app_assoc, refs_app.
  destruct (ctx_set n); reflexivity.
Qed.

Lemma listing_failure_is_surfaced_witness :
  fst (getAllDevices Samples.brokenListing 0x1209 0)
    = ([], Some (libusbError (-99))).
Proof.
  apply (listing_failure_is_surfaced Samples.brokenListing 0x1209 0).
  - left. reflexivity.
  - reflexivity.
Defined.




End DiscoveryClaims.

(** ** open and Close *)

Module LifecycleFacts.
Import Lifecycle Selection.

Lemma selectLoop_selected i l d cs :
  selectLoop i l (Some d) cs = (Ret (Some d), cs ++ map unref l).
Proof.
  revert cs. induction l as [| m l IH]; intros cs; cbn.
  - now rewrite app_nil_r.
  - now rewrite IH, <- app_assoc.
Qed.

Lemma samePort_matches i m port :
  libusbPort i = Some port ->
  samePortAndInterface m i = Some true <-> matches i m.
Proof.
  intros Hi. unfold samePortAndInterface, matches. rewrite Hi.
  destruct (libusbPort m) as [p |]; [| split; [discriminate | intros [? _]; discriminate]].
  destruct (Z.eqb_spec p port), (Z.eqb_spec (Interface m) (Interface i)); cbn;
    split; try discriminate; try (intros [? ?]; congruence); intros _; split; congruence.
Qed.

Lemma samePort_no_match i m port :
  libusbPort i = Some port -> libusbPort m <> None -> ~ matches i m ->
  samePortAndInterface m i = Some false.
Proof.
  intros Hi Hm Hno. pose proof (samePort_matches i m port Hi) as X.
  unfold samePortAndInterface in *. rewrite Hi in *.
  destruct (libusbPort m); [| congruence].
  destruct ((_ =? _) && _); [tauto | reflexivity].
Qed.

Lemma matches_dec i m : {matches i m} + {~ matches i m}.
Proof.
  unfold matches.
  destruct (Z.eq_dec (Interface m) (Interface i)); [| right; tauto].
  destruct (libusbPort m) as [p |], (libusbPort i) as [q |];
    try (right; intros [? _]; discriminate); [| left; auto].
  destruct (Z.eq_dec p q); [left; split; congruence | right; intros [? _]; congruence].
Qed.

(** Either no candidate matches, or the list splits at the first one. *)
Lemma first_match i (l : list DeviceInfo) :
  (forall m, In m l -> ~ matches i m)
  \/ exists pre m post,
       l = pre ++ m :: post /\ (forall x, In x pre -> ~ matches i x) /\ matches i m.
Proof.
  induction l as [| a l IH]; [left; intros m [] |].
  destruct (matches_dec i a) as [Ha | Ha].
  - right. exists [], a, l.
    split; [reflexivity |]. split; [intros x [] | exact Ha].
  - destruct IH as [IH | (pre & m & post & -> & Hpre & Hm)].
    + left. intros m [<- | Hm]; auto.
    + right. exists (a :: pre), m, post.
      split; [reflexivity |]. split; [| exact Hm].
      intros x [<- | Hx]; auto.
Qed.

Lemma selectLoop_none i l cs port :
  libusbPort i = Some port ->
  (forall m, In m l -> libusbPort m <> None) ->
  (forall m, In m l -> ~ matches i m) ->
  selectLoop i l None cs = (Ret None, cs ++ map unref l).
Proof.
  intros Hi. revert cs. induction l as [| m l IH]; intros cs Hp Hno; cbn.
  - now rewrite app_nil_r.
  - rewrite (samePort_no_match i m port Hi) by (apply Hp || apply Hno; now left).
    rewrite IH, <- app_assoc; auto; intros x Hx; [apply Hp | apply Hno]; now right.
Qed.

Lemma selectLoop_first i pre m post cs port :
  libusbPort i = Some port ->
  (forall x, In x pre -> libusbPort x <> None) ->
  (forall x, In x pre -> ~ matches i x) ->
  matches i m ->
  selectLoop i (pre ++ m :: post) None cs
    = (Ret (Some (libusbDevice m)), cs ++ map unref pre ++ map unref post).
Proof.
  intros Hi. revert cs. induction pre as [| a pre IH]; intros cs Hp Hno Hm; cbn.
  - apply (samePort_matches i m port Hi) in Hm. rewrite Hm.
    apply selectLoop_selected.
  - rewrite (samePort_no_match i a port Hi) by (apply Hp || apply Hno; now left).
    rewrite IH, <- app_assoc; auto; intros x Hx; [apply Hp | apply Hno]; now right.
Qed.

(** Only the port and the interface index of the requested record are read. *)
Lemma selectLoop_fields i i' l device cs :
  libusbPort i' = libusbPort i -> Interface i' = Interface i ->
  selectLoop i' l device cs = selectLoop i l device cs.
Proof.
  intros Hp Hi. revert device cs.
  induction l as [| m l IH]; intros device cs; cbn; [reflexivity |].
  unfold samePortAndInterface. rewrite Hp, Hi.
  destruct device; [apply IH |].
  destruct (libusbPort m), (libusbPort i); try reflexivity.
  destruct ((_ =? _) && _); apply IH.
Qed.

Lemma snd_SetAutoDetach n dev val :
  snd (SetAutoDetach n dev val)
    = [libusb_set_auto_detach_kernel_driver (handle_ dev) val].
Proof.
  unfold SetAutoDetach.
  destruct (fromLibusbErrno _) as [e |]; [| reflexivity].
  destruct (negb _); reflexivity.
Qed.

Lemma snd_DetachKernelDriver n dev :
  snd (DetachKernelDriver n dev)
    = [libusb_detach_kernel_driver (handle_ dev) (Interface (info dev))].
Proof.
  unfold DetachKernelDriver.
  destruct (fromLibusbErrno _) as [e |]; [| reflexivity].
  destruct (negb _ && negb _); reflexivity.
Qed.

(** [open] from the end of the candidate scan on. *)
Lemma open_after_scan n i l cs :
  Discovery.getAllDevices n (VendorID i) (ProductID i) = (l, None, cs) ->
  match selectLoop i l None cs with
  | (Panic p, c1) => open n i = (Panic p, c1)
  | (Ret None, c1) => open n i = (Ret (None, Some ErrOpenNotFound), c1)
  | (Ret (Some device), c1) =>
      fst (open n i) <> Ret (None, Some ErrOpenNotFound)
      /\ exists rest, snd (open n i) = c1 ++ libusb_open device :: rest
  end.
Proof.
  intros H. unfold open. rewrite H.
  destruct (selectLoop i l None cs) as [[p | [device |]] c1]; try reflexivity.
  destruct (open_result n device) as [errno h].
  destruct (fromLibusbErrno errno) as [e |].
  - split; [discriminate |]. exists []. reflexivity.
  - rewrite snd_SetAutoDetach, snd_DetachKernelDriver. cbn [handle_ info].
    destruct (fromLibusbErrno (claim_errno n h _)) as [e |];
      (split; [discriminate |]); eexists; cbn [snd]; rewrite <- !app_assoc; reflexivity.
Qed.

Lemma ports_populated n vid pid l cs :
  Discovery.getAllDevices n vid pid = (l, None, cs) ->
  forall m, In m l -> libusbPort m <> None.
Proof.
  intros H m Hm. apply DiscoveryFacts.getAllDevices_ok in H.
  destruct H as (dc & _ & _ & _ & HP).
  apply HP, DiscoveryClaims.emitted_fields in Hm.
  destruct Hm as (port & ? & ? & ? & ? & -> & _). discriminate.
Qed.

End LifecycleFacts.

Module LifecycleClaims.
Import Lifecycle Selection LifecycleFacts.

(** C6: when the re-run discovery (filtered by the vendor and product IDs
    of the requested record) returns without error, and the requested record
    has its port populated, [open] selects a candidate exactly when some
    candidate has the same port number and the same interface index; the
    selected candidate is such a one and is the device then opened; with no
    such candidate [open] fails with the not-found error, and only then;
    the scan reads nothing of the requested record but those two fields. *)
Theorem open_matches_port_and_interface n i l cs port :
  Discovery.getAllDevices n (VendorID i) (ProductID i) = (l, None, cs) ->
  libusbPort i = Some port ->
  ((exists m, In m l /\ matches i m) ->
     exists m rest,
       In m l /\ matches i m
       /\ fst (selectLoop i l None cs) = Ret (Some (libusbDevice m))
       /\ snd (open n i)
          = snd (selectLoop i l None cs) ++ libusb_open (libusbDevice m) :: rest)
  /\ (forall device, fst (selectLoop i l None cs) = Ret (Some device) ->
        exists m, In m l /\ matches i m /\ device = libusbDevice m)
  /\ ((~ exists m, In m l /\ matches i m)
      <-> fst (open n i) = Ret (None, Some ErrOpenNotFound))
  /\ (forall i', libusbPort i' = libusbPort i -> Interface i' = Interface i ->
        selectLoop i' l None cs = selectLoop i l None cs).
Proof.
  intros H Hport.
  pose proof (ports_populated _ _ _ _ _ H) as Hp.
  pose proof (open_after_scan n i l cs H) as O.
  assert (Fields : forall i', libusbPort i' = libusbPort i ->
            Interface i' = Interface i ->
            selectLoop i' l None cs = selectLoop i l None cs)
    by (intros i' E1 E2; now apply selectLoop_fields).
  destruct (first_match i l) as [Hno | (pre & m & post & -> & Hpre & Hm)].
  - rewrite (selectLoop_none i l cs port Hport Hp Hno) in *.
    split; [| split; [| split]].
    + intros (m & Hin & Hm). destruct (Hno m Hin Hm).
    + intros device. cbn. discriminate.
    + rewrite O. cbn. split; [reflexivity |].
      intros _ (m & Hin & Hm). exact (Hno m Hin Hm).
    + exact Fields.
  - assert (Hp' : forall x, In x pre -> libusbPort x <> None)
      by (intros x Hx; apply Hp, in_or_app; now left).
    assert (Hin : In m (pre ++ m :: post))
      by (apply in_or_app; right; now left).
    rewrite (selectLoop_first i pre m post cs port Hport Hp' Hpre Hm) in *.
    destruct O as [Onf (rest & Orest)].
    split; [| split; [| split]].
    + intros _. exists m, rest. cbn [fst snd]. auto.
    + intros device [= <-]. exists m. auto.
    + split; [| intros X; congruence].
      intros Hnone. exfalso. apply Hnone. eauto.
    + exact Fields.
Qed.

Lemma open_matches_port_and_interface_witness :
  exists m,
    In m (fst (fst (Discovery.getAllDevices Samples.twoAltWorld 0x1209 0x0001)))
    /\ matches Samples.wanted m /\ 1%nat = libusbDevice m.
Proof.
  apply (proj1 (proj2 (open_matches_port_and_interface Samples.twoAltWorld
                         Samples.wanted
                         (fst (fst (Discovery.getAllDevices Samples.twoAltWorld 0x1209 0x0001)))
                         (snd (Discovery.getAllDevices Samples.twoAltWorld 0x1209 0x0001))
                         4 eq_refl eq_refl)) 1%nat).
  reflexivity.
Defined.



(** C7, as the code has it: [DetachKernelDriver] reports success for the
    outcomes "not supported" and "not found" (and for success itself) and
    returns any other failure to its caller; [open] attempts the explicit
    detach right after the native handle is opened and the automatic detach
    is enabled, and drops what it returns: the result of [open] and the
    native calls it makes are the same whatever the detach answers, and
    [open] goes on to claim the interface. *)
Theorem detach_result_is_dropped_by_open :
  (forall n dev,
     fst (DetachKernelDriver n dev)
       = let errno := detach_errno n (handle_ dev) (Interface (info dev)) in
         if detachTolerated errno then None else Some (libusbError errno))
  /\ (forall n f i, open (withDetach n f) i = open n i)
  /\ (forall n i dev,
        fst (open n i) = Ret (Some dev, None) ->
        exists before,
          snd (open n i)
            = before
              ++ [libusb_open (libusbDevice (info dev));
                  libusb_set_auto_detach_kernel_driver (handle_ dev) 1;
                  libusb_detach_kernel_driver (handle_ dev) (Interface (info dev));
                  libusb_claim_interface (handle_ dev) (Interface (info dev))]).
Proof.
  split; [| split].
  - intros n dev. unfold DetachKernelDriver, detachTolerated, fromLibusbErrno.
    cbn zeta. set (errno := detach_errno n (handle_ dev) (Interface (info dev))).
    destruct (Z.eqb_spec errno C.LIBUSB_SUCCESS) as [E | E]; [reflexivity |].
    cbn [error_eqb ErrNotSupported ErrNotFound orb fst].
    unfold ErrNotSupported, ErrNotFound. cbn [error_eqb].
    destruct (errno =? C.LIBUSB_ERROR_NOT_SUPPORTED),
             (errno =? C.LIBUSB_ERROR_NOT_FOUND); reflexivity.
  - intros n f i. unfold open.
    change (Discovery.getAllDevices (withDetach n f) (VendorID i) (ProductID i))
      with (Discovery.getAllDevices n (VendorID i) (ProductID i)).
    destruct (Discovery.getAllDevices n (VendorID i) (ProductID i)) as [[l err] c0].
    destruct err; [reflexivity |].
    destruct (selectLoop i l None c0) as [[p | [device |]] c1]; try reflexivity.
    cbn [open_result withDetach claim_errno].
    destruct (open_result n device) as [errno h].
    destruct (fromLibusbErrno errno); [reflexivity |].
    rewrite !snd_SetAutoDetach, !snd_DetachKernelDriver. reflexivity.
  - intros n i dev. unfold open.
    destruct (Discovery.getAllDevices n (VendorID i) (ProductID i)) as [[l err] c0].
    destruct err; [discriminate |].
    destruct (selectLoop i l None c0) as [[p | [device |]] c1]; try discriminate.
    destruct (open_result n device) as [errno h].
    destruct (fromLibusbErrno errno); [discriminate |].
    rewrite snd_SetAutoDetach, snd_DetachKernelDriver. cbn [handle_ info].
    destruct (fromLibusbErrno (claim_errno n h _)); [discriminate |].
    cbn [fst snd]. intros [= <-]. cbn. exists c1.
    now rewrite <- !app_assoc.
Qed.

Lemma detach_result_is_dropped_by_open_witness :
  exists before,
    snd (open Samples.detachFails Samples.wanted)
      = before
        ++ [libusb_open 1;
            libusb_set_auto_detach_kernel_driver (Some 1%nat) 1;
            libusb_detach_kernel_driver (Some 1%nat) 0;
            libusb_claim_interface (Some 1%nat) 0].
Proof.
  exact (proj2 (proj2 detach_result_is_dropped_by_open)
           Samples.detachFails Samples.wanted
           {| info := withDevice Samples.wanted 1; handle_ := Some 1%nat;
              writeTimeout := 0; readTimeout := 0 |}
           eq_refl).
Defined.

(** C7 as stated fails: the explicit detach fails with an I/O error, which
    is neither "not supported" nor "not found"; [DetachKernelDriver] returns
    that error, and [open] still succeeds and hands out a handle. *)
Lemma detach_failure_does_not_abort_open :
  fst (DetachKernelDriver Samples.detachFails Samples.openHandle)
    = Some (libusbError (-1))
  /\ exists dev, fst (open Samples.detachFails Samples.wanted) = Ret (Some dev, None).
Proof. split; [reflexivity |]. eexists. reflexivity. Qed.

(** C2, at the failing input: closing a handle a second time returns no
    error and touches the native handle no more, but it is not a no-op: it
    makes one more release call on the device object, which the first close
    had already released. *)
Theorem second_close_releases_device_again (dev : libusbDeviceT) :
  let '(dev1, _, calls1) := Close dev in
  let '(dev2, err2, calls2) := Close dev1 in
  handle_ dev1 = None
  /\ In (libusb_unref_device (libusbDevice (info dev))) calls1
  /\ err2 = None /\ dev2 = dev1
  /\ calls2 = [libusb_unref_device (libusbDevice (info dev))].
Proof.
  unfold Close. destruct dev as [i [h |] wt rt]; cbn; repeat split; auto.
Qed.

End LifecycleClaims.

(** ** Read and Write *)

Module TransferClaims.
Import Lifecycle Transfer.

(** A buffer that is not empty reaches the native transfer call as it is,
    with its length and the timeout converted to the C types. *)
Lemma transfer_forwards result made wrap dev ep x b timeout :
  snd (transfer result made wrap dev (Some ep) (x :: b) timeout)
    = [made (handle_ dev) ep (x :: b) (C.int (Z.of_nat (length (x :: b))))
         (C.uint timeout)].
Proof.
  unfold transfer. destruct (result _ _ _ _) as [errno t].
  destruct (fromLibusbErrno errno); reflexivity.
Qed.

(** C9, at the failing input: on a handle whose endpoint of the direction
    used is populated and of kind bulk or interrupt, [Write] and [Read] of a
    zero-length buffer do not reach the native layer: taking the address of
    [b[0]] panics with an index out of range, and no native call is made. *)
Theorem empty_buffer_panics n dev :
  (writerTransferType (info dev) = Some Constants.TransferTypeBulk
   \/ writerTransferType (info dev) = Some Constants.TransferTypeInterrupt ->
   libusbWriter (info dev) <> None ->
   Write n dev [] = (Panic (IndexOutOfRange 0 0), []))
  /\ (readerTransferType (info dev) = Some Constants.TransferTypeBulk
      \/ readerTransferType (info dev) = Some Constants.TransferTypeInterrupt ->
      libusbReader (info dev) <> None ->
      Read n dev [] = (Panic (IndexOutOfRange 0 0), [])).
Proof.
  split; intros K E.
  - unfold Write, writeInterrupt, writeBulk, transfer.
    destruct (libusbWriter (info dev)); [| congruence].
    destruct K as [-> | ->]; reflexivity.
  - unfold Read, readInterrupt, readBulk, transfer.
    destruct (libusbReader (info dev)); [| congruence].
    destruct K as [-> | ->]; reflexivity.
Qed.

Lemma empty_buffer_panics_witness :
  Write Samples.twoAltWorld Samples.openHandle [] = (Panic (IndexOutOfRange 0 0), [])
  /\ Read Samples.twoAltWorld Samples.openHandle [] = (Panic (IndexOutOfRange 0 0), []).
Proof.
  split.
  - apply (proj1 (empty_buffer_panics Samples.twoAltWorld Samples.openHandle)).
    + left. reflexivity.
    + discriminate.
  - apply (proj2 (empty_buffer_panics Samples.twoAltWorld Samples.openHandle)).
    + left. reflexivity.
    + discriminate.
Defined.

End TransferClaims.

(** ** More on getAllDevices: partial results, errors and the call trace *)

Module DiscoveryTrace.
Import Discovery Matching Refcount Progress Shapes ScanFacts DiscoveryFacts.

Lemma touches_refl devs s : touches devs s s.
Proof. exists []. rewrite app_nil_r. split; [reflexivity | constructor]. Qed.

Lemma touches_trans devs s s' s'' :
  touches devs s s' -> touches devs s' s'' -> touches devs s s''.
Proof.
  intros (a & Ha & Fa) (b & Hb & Fb). exists (a ++ b).
  rewrite Hb, Ha, app_assoc. split; [reflexivity |]. apply Forall_app. now split.
Qed.

Lemma touches_emit devs dev s cs :
  In dev devs -> Forall (deviceCall (ptr dev)) cs -> touches devs s (emit s cs).
Proof.
  intros Hin F. exists cs. split; [reflexivity |].
  eapply Forall_impl; [| exact F]. intros c Hc. exists dev. now split.
Qed.

Lemma altStep_touches devs vid dev desc k s alt :
  In dev devs -> touches devs s (altStep vid dev desc k s alt).
Proof.
  intros Hin. destruct (altStep_cases vid dev desc k s alt) as [[_ ->] | [_ ->]];
    [| apply touches_refl].
  exists [libusb_ref_device (ptr dev); get_port_number (ptr dev)].
  split; [reflexivity |].
  repeat constructor; exists dev; split; auto; reflexivity.
Qed.

Lemma fold_altStep_touches devs vid dev desc k alts s :
  In dev devs -> touches devs s (fold_left (altStep vid dev desc k) alts s).
Proof.
  intros Hin. revert s. induction alts as [| alt alts IH]; intros s; cbn [fold_left].
  - apply touches_refl.
  - eapply touches_trans; [apply altStep_touches, Hin | apply IH].
Qed.

Lemma ifaceLoop_touches devs vid dev desc k ifaces s :
  In dev devs -> touches devs s (ifaceLoop vid dev desc k ifaces s).
Proof.
  intros Hin. revert k s.
  induction ifaces as [| iface rest IH]; intros k s; cbn [ifaceLoop].
  - apply touches_refl.
  - eapply touches_trans; [| apply IH].
    destruct (altsetting iface) as [| a r] eqn:E; [apply touches_refl |].
    apply fold_altStep_touches, Hin.
Qed.

(** Whatever the configuration loop returns, what it added is sound. *)
Lemma cfgLoop_sound devs vid devnum dev desc todo c s s' r :
  In dev devs ->
  cfgLoop vid devnum dev desc todo c s = (s', r) ->
  touches devs s s'
  /\ exists P, ext P s s' /\ (forall i, P i -> fromConfigs vid dev desc c todo i).
Proof.
  intros Hin. revert c s. induction todo as [| todo IH]; intros c s; cbn [cfgLoop].
  - intros [= <- <-]. split; [apply touches_refl |].
    exists (fun _ => False). split; [apply ext_refl | tauto].
  - destruct (libusb_get_config_descriptor dev c) as [errno cfg] eqn:E.
    assert (T : touches devs s (emit s [get_config_descriptor (ptr dev) c]))
      by (apply (touches_emit devs dev); [exact Hin | repeat constructor]).
    assert (X : ext (fun _ => False) s (emit s [get_config_descriptor (ptr dev) c]))
      by (apply ext_emit; reflexivity).
    destruct (fromLibusbErrno errno).
    + intros [= <- <-]. split; [exact T |].
      exists (fun _ => False). split; [exact X | tauto].
    + intros H. apply IH in H. destruct H as [T' (P & HP & Himp)].
      split.
      * eapply touches_trans; [eapply touches_trans; [exact T |] | exact T'].
        apply ifaceLoop_touches, Hin.
      * eexists. split.
        -- eapply ext_trans; [eapply ext_trans; [exact X | apply ifaceLoop_ext] | exact HP].
        -- cbn beta. intros i [[[] | Hi] | Hi].
           ++ exists 0%nat. rewrite Nat.add_0_r, E. split; [lia | exact Hi].
           ++ destruct (Himp i Hi) as (j & Hj & Hi').
              exists (S j). rewrite Nat.add_succ_r. split; [lia | exact Hi'].
Qed.

Lemma cfgLoop_error vid devnum dev desc todo c s s' e :
  cfgLoop vid devnum dev desc todo c s = (s', Some e) ->
  exists j e0, (j < todo)%nat
    /\ fromLibusbErrno (fst (libusb_get_config_descriptor dev (c + j))) = Some e0
    /\ e = ErrConfigDescriptor devnum (c + j) e0.
Proof.
  revert c s. induction todo as [| todo IH]; intros c s; cbn [cfgLoop];
    [discriminate |].
  destruct (libusb_get_config_descriptor dev c) as [errno cfg] eqn:E.
  destruct (fromLibusbErrno errno) as [e0 |] eqn:F.
  - intros [= _ <-]. exists 0%nat, e0. rewrite Nat.add_0_r, E. cbn.
    split; [lia | now split].
  - intros H. apply IH in H. destruct H as (j & e0 & Hj & H1 & H2).
    exists (S j), e0. rewrite Nat.add_succ_r. split; [lia | now split].
Qed.

Lemma incl_touches devs devs' s s' :
  (forall d, In d devs -> In d devs') -> touches devs s s' -> touches devs' s s'.
Proof.
  intros I (dc & H & F). exists dc. split; [exact H |].
  eapply Forall_impl; [| exact F]. intros c (dev & Hd & Hc). exists dev. auto.
Qed.

Lemma devLoop_sound vid pid devnum devs s s' r :
  devLoop vid pid devnum devs s = (s', r) ->
  touches devs s s'
  /\ exists P, ext P s s'
       /\ (forall i, P i -> exists dev, In dev devs /\ fromDevice vid pid dev i).
Proof.
  revert devnum s. induction devs as [| dev rest IH]; intros devnum s; cbn [devLoop].
  - intros [= <- <-]. split; [apply touches_refl |].
    exists (fun _ => False). split; [apply ext_refl | tauto].
  - destruct (libusb_get_device_descriptor dev) as [errno desc] eqn:E.
    assert (T : touches (dev :: rest) s (emit s [get_device_descriptor (ptr dev)]))
      by (apply (touches_emit _ dev); [now left | repeat constructor]).
    assert (X : ext (fun _ => False) s (emit s [get_device_descriptor (ptr dev)]))
      by (apply ext_emit; reflexivity).
    assert (next : forall s1,
      devLoop vid pid (S devnum) rest s1 = (s', r) ->
      touches (dev :: rest) s1 s'
      /\ exists P, ext P s1 s'
           /\ (forall i, P i -> exists d, In d (dev :: rest) /\ fromDevice vid pid d i)).
    { intros s1 H. apply IH in H. destruct H as [T' (P & HP & Himp)]. split.
      - eapply incl_touches; [| exact T']. intros d Hd. now right.
      - exists P. split; [exact HP |]. intros i Hi.
        destruct (Himp i Hi) as (d & Hd & Hf). exists d. split; [now right | exact Hf]. }
    assert (skip :
      devLoop vid pid (S devnum) rest (emit s [get_device_descriptor (ptr dev)]) = (s', r) ->
      touches (dev :: rest) s s'
      /\ exists P, ext P s s'
           /\ (forall i, P i -> exists d, In d (dev :: rest) /\ fromDevice vid pid d i)).
    { intros H. apply next in H. destruct H as [T' (P & HP & Himp)]. split.
      - eapply touches_trans; eassumption.
      - eexists. split; [eapply ext_trans; [exact X | exact HP] |].
        cbn beta. intros i [[] | Hi]. auto. }
    destruct (fromLibusbErrno errno).
    { intros [= <- <-]. split; [exact T |].
      exists (fun _ => False). split; [exact X | tauto]. }
    destruct (filteredOut vid pid desc) eqn:F; [exact skip |].
    unfold C.LIBUSB_CLASS_HID.
    destruct (Z.eqb_spec (bDeviceClass desc) Constants.ClassHID) as [Hc | Hc];
      [exact skip |].
    destruct (cfgLoop vid devnum dev desc (Z.to_nat (bNumConfigurations desc)) 0
                (emit s [get_device_descriptor (ptr dev)])) as [s2 r2] eqn:L.
    apply (cfgLoop_sound (dev :: rest)) in L; [| now left].
    destruct L as [T2 (P2 & HP2 & Himp2)].
    assert (mine : forall i, P2 i ->
              exists d, In d (dev :: rest) /\ fromDevice vid pid d i).
    { intros i Hi. exists dev. split; [now left |].
      unfold fromDevice. rewrite E. cbn. auto. }
    destruct r2 as [err |].
    + intros [= <- <-]. split; [eapply touches_trans; eassumption |].
      eexists. split; [eapply ext_trans; [exact X | exact HP2] |].
      cbn beta. intros i [[] | Hi]. auto.
    + intros H. apply next in H. destruct H as [T' (P & HP & Himp)]. split.
      * eapply touches_trans; [eapply touches_trans |]; eassumption.
      * eexists. split;
          [eapply ext_trans; [eapply ext_trans; [exact X | exact HP2] | exact HP] |].
        cbn beta. intros i [[[] | Hi] | Hi]; auto.
Qed.

Lemma devLoop_error vid pid devnum devs s s' e :
  devLoop vid pid devnum devs s = (s', Some e) ->
  (exists k dev e0,
     nth_error devs k = Some dev
     /\ fromLibusbErrno (fst (libusb_get_device_descriptor dev)) = Some e0
     /\ e = ErrDeviceDescriptor (devnum + k) e0)
  \/ (exists k dev c e0,
        nth_error devs k = Some dev
        /\ (let desc := snd (libusb_get_device_descriptor dev) in
            filteredOut vid pid desc = false
            /\ bDeviceClass desc <> Constants.ClassHID
            /\ (c < Z.to_nat (bNumConfigurations desc))%nat)
        /\ fromLibusbErrno (fst (libusb_get_config_descriptor dev c)) = Some e0
        /\ e = ErrConfigDescriptor (devnum + k) c e0).
Proof.
  revert devnum s. induction devs as [| dev rest IH]; intros devnum s; cbn [devLoop];
    [discriminate |].
  destruct (libusb_get_device_descriptor dev) as [errno desc] eqn:E.
  assert (next : forall s1,
    devLoop vid pid (S devnum) rest s1 = (s', Some e) ->
    (exists k d e0,
       nth_error (dev :: rest) k = Some d
       /\ fromLibusbErrno (fst (libusb_get_device_descriptor d)) = Some e0
       /\ e = ErrDeviceDescriptor (devnum + k) e0)
    \/ (exists k d c e0,
          nth_error (dev :: rest) k = Some d
          /\ (let desc := snd (libusb_get_device_descriptor d) in
              filteredOut vid pid desc = false
              /\ bDeviceClass desc <> Constants.ClassHID
              /\ (c < Z.to_nat (bNumConfigurations desc))%nat)
          /\ fromLibusbErrno (fst (libusb_get_config_descriptor d c)) = Some e0
          /\ e = ErrConfigDescriptor (devnum + k) c e0)).
  { intros s1 H. apply IH in H.
    destruct H as [(k & d & e0 & H1 & H2 & H3) | (k & d & c & e0 & H1 & H2 & H3 & H4)].
    - left. exists (S k), d, e0. rewrite Nat.add_succ_r. auto.
    - right. exists (S k), d, c, e0. rewrite Nat.add_succ_r. auto. }
  destruct (fromLibusbErrno errno) as [e0 |] eqn:Fe.
  { intros [= _ <-]. left. exists 0%nat, dev, e0. rewrite Nat.add_0_r, E. cbn. auto. }
  destruct (filteredOut vid pid desc) eqn:F; [apply next |].
  unfold C.LIBUSB_CLASS_HID.
  destruct (Z.eqb_spec (bDeviceClass desc) Constants.ClassHID) as [Hc | Hc];
    [apply next |].
  destruct (cfgLoop vid devnum dev desc (Z.to_nat (bNumConfigurations desc)) 0
              (emit s [get_device_descriptor (ptr dev)])) as [s2 [err |]] eqn:L;
    [| apply next].
  intros [= _ <-]. apply cfgLoop_error in L.
  destruct L as (j & e0 & Hj & H1 & H2). cbn in H1, H2.
  right. exists 0%nat, dev, j, e0. rewrite Nat.add_0_r, E. cbn. auto.
Qed.

(** Calls about devices neither release nor concern the list. *)
Lemma deviceCalls_quiet (Q : call -> Prop) dc :
  (forall c, Q c -> exists d, deviceCall d c) ->
  Forall Q dc ->
  forall d, unrefs d dc = 0%nat /\ outstanding dc d = Z.of_nat (refs d dc).
Proof.
  intros HQ F d. induction F as [| c dc Hc F IH]; [split; reflexivity |].
  destruct IH as [IHu IHo]. destruct (HQ c Hc) as (d' & Hd).
  unfold unrefs, refs in *. cbn [filter outstanding fold_right]. fold (outstanding dc d).
  rewrite IHo.
  destruct c; cbn in Hd; try contradiction; cbn; try (split; [exact IHu | lia]).
  destruct (Nat.eqb dev d); cbn [length]; split; try exact IHu; lia.
Qed.

Lemma outstanding_app a b d : outstanding (a ++ b) d = outstanding a d + outstanding b d.
Proof.
  unfold outstanding. induction a as [| c a IH]; cbn; [reflexivity |].
  rewrite IH. lia.
Qed.

Lemma outstanding_released d (l : list DeviceInfo) :
  outstanding (map (fun i => libusb_unref_device (libusbDevice i)) l) d
    = - Z.of_nat (recordsOn d l).
Proof.
  unfold outstanding, recordsOn. induction l as [| i l IH]; cbn; [reflexivity |].
  rewrite IH. destruct (Nat.eqb (libusbDevice i) d); cbn [length]; lia.
Qed.

(** Everything [getAllDevices] can do, with or without an error. *)
Lemma getAllDevices_trace n vid pid l r cs :
  getAllDevices n vid pid = (l, r, cs) ->
  (ctx_set n = false /\ l = [] /\ cs = [libusb_init]
   /\ exists e0, fromLibusbErrno (init_errno n) = Some e0 /\ r = Some (ErrInit e0))
  \/ ((ctx_set n = true \/ fromLibusbErrno (init_errno n) = None)
      /\ exists dc,
           cs = prologue n ++ dc
                  ++ match r with
                     | None => map (fun i => libusb_unref_device (libusbDevice i)) l
                     | Some _ => []
                     end
                  ++ [libusb_free_device_list None 1]
           /\ Forall (fun c => exists dev, In dev (devices n) /\ deviceCall (ptr dev) c) dc
           /\ (forall d, refs d dc = recordsOn d l)
           /\ (forall i, In i l -> emittedFrom n vid pid i)
           /\ match r with
              | None => 0 <= device_list_count n
              | Some e =>
                  (device_list_count n < 0 /\ e = libusbError (device_list_count n)
                   /\ l = [] /\ dc = [])
                  \/ (0 <= device_list_count n
                      /\ (descriptorFailure n e \/ configFailure n vid pid e))
              end).
Proof.
  unfold getAllDevices, prologue.
  destruct (ctx_set n) eqn:Ctx.
  - intros H. right. split; [now left |]. revert H.
    destruct (Z.ltb_spec (device_list_count n) 0) as [Hneg | Hpos].
    + intros [= <- <- <-]. exists []. cbn. repeat split; try constructor; try tauto.
    + destruct (devLoop vid pid 0 (devices n) _) as [s r0] eqn:L.
      pose proof (devLoop_sound _ _ _ _ _ _ _ L) as [(dc & Hc & F) (P & X & Himp)].
      destruct X as (di & dc' & Hi & Hc' & Hr & _ & HP). cbn in Hc, Hi, Hc'.
      assert (dc' = dc) by (rewrite Hc in Hc'; first [apply app_inv_head in Hc' | idtac]; congruence).
      subst dc'.
      destruct r0 as [e |]; intros [= <- <- <-]; exists dc; rewrite Hc, Hi;
        cbn [app]; rewrite <- ?app_assoc; cbn [app];
        (split; [reflexivity |]); (split; [exact F |]); (split; [exact Hr |]);
        (split; [intros i Hi'; apply HP, Himp in Hi'; exact Hi' |]).
      * right. split; [exact Hpos |]. apply devLoop_error in L.
        destruct L as [(k & d & e0 & H1 & H2 & H3) | (k & d & c & e0 & H1 & H2 & H3 & H4)].
        -- left. exists k, d, e0. auto.
        -- right. exists k, d, c, e0. auto.
      * exact Hpos.
  - destruct (fromLibusbErrno (init_errno n)) as [e0 |] eqn:I.
    + intros [= <- <- <-]. left. repeat split. exists e0. auto.
    + intros H. right. split; [now right |]. revert H.
      destruct (Z.ltb_spec (device_list_count n) 0) as [Hneg | Hpos].
      * intros [= <- <- <-]. exists []. cbn. repeat split; try constructor; try tauto.
      * destruct (devLoop vid pid 0 (devices n) _) as [s r0] eqn:L.
        pose proof (devLoop_sound _ _ _ _ _ _ _ L) as [(dc & Hc & F) (P & X & Himp)].
        destruct X as (di & dc' & Hi & Hc' & Hr & _ & HP). cbn in Hc, Hi, Hc'.
        assert (dc' = dc) by (rewrite Hc in Hc'; first [apply app_inv_head in Hc' | idtac]; congruence).
      subst dc'.
        destruct r0 as [e |]; intros [= <- <- <-]; exists dc; rewrite Hc, Hi;
          cbn [app]; rewrite <- ?app_assoc; cbn [app];
          (split; [reflexivity |]); (split; [exact F |]); (split; [exact Hr |]);
          (split; [intros i Hi'; apply HP, Himp in Hi'; exact Hi' |]).
        -- right. split; [exact Hpos |]. apply devLoop_error in L.
           destruct L as [(k & d & e0 & H1 & H2 & H3) | (k & d & c & e0 & H1 & H2 & H3 & H4)].
           ++ left. exists k, d, e0. auto.
           ++ right. exists k, d, c, e0. auto.
        -- exact Hpos.
Qed.

End DiscoveryTrace.

Module DiscoveryExtras.
Import Discovery Matching Refcount Progress Shapes ScanFacts DiscoveryFacts DiscoveryTrace.

(** The record of an emitting alt-setting, with where it came from. *)
Lemma emitted_record n vid pid i :
  emittedFrom n vid pid i ->
  exists dev k alt,
    In dev (devices n)
    /\ filteredOut vid pid (snd (libusb_get_device_descriptor dev)) = false
    /\ bDeviceClass (snd (libusb_get_device_descriptor dev)) <> Constants.ClassHID
    /\ altEmits alt
    /\ i = mkDeviceInfo vid dev (snd (libusb_get_device_descriptor dev)) k alt
             (scanEndpoints (endpoint alt)).
Proof.
  intros (dev & Hin & F & Hc & j & _ & k & iface & alt & _ & _ & Ha & ->).
  exists dev, (0 + k)%nat, alt. auto.
Qed.

Lemma returned_records n vid pid l r cs :
  getAllDevices n vid pid = (l, r, cs) ->
  forall i, In i l -> emittedFrom n vid pid i.
Proof.
  intros H i Hi. apply getAllDevices_trace in H.
  destruct H as [(_ & -> & _) | (_ & dc & _ & _ & _ & E & _)]; [destruct Hi | auto].
Qed.

(** The filters and the two HID tests hold of every record handed back,
    whether the scan ran to its end or stopped on an error. *)
Theorem returned_records_respect_filters n vendorID productID l r cs :
  getAllDevices n vendorID productID = (l, r, cs) ->
  forall i, In i l ->
    (0 < vendorID -> VendorID i = vendorID)
    /\ (0 < productID -> ProductID i = productID)
    /\ Class i <> Constants.ClassHID
    /\ InterfaceClass i <> Constants.ClassHID.
Proof.
  intros H i Hi. apply (returned_records _ _ _ _ _ _ H), emitted_record in Hi.
  destruct Hi as (dev & k & alt & _ & F & Hc & (Ha & _) & ->). cbn.
  unfold filteredOut in F. apply orb_false_iff in F. destruct F as [Fv Fp].
  repeat split; auto.
  - intros Hv. apply Z.ltb_lt in Hv. rewrite Hv in Fv. cbn in Fv.
    apply negb_false_iff, Z.eqb_eq in Fv. exact Fv.
  - intros Hp. apply Z.ltb_lt in Hp. rewrite Hp in Fp. cbn in Fp.
    apply negb_false_iff, Z.eqb_eq in Fp. exact Fp.
Qed.

Lemma returned_records_respect_filters_witness :
  VendorID (hd Samples.wanted
              (fst (fst (getAllDevices MoreSamples.midScanFailure 0x1209 0))))
    = 0x1209.
Proof.
  refine (proj1 (returned_records_respect_filters MoreSamples.midScanFailure 0x1209 0
                   (fst (fst (getAllDevices MoreSamples.midScanFailure 0x1209 0)))
                   (snd (fst (getAllDevices MoreSamples.midScanFailure 0x1209 0)))
                   (snd (getAllDevices MoreSamples.midScanFailure 0x1209 0))
                   eq_refl _ _) _).
  - left. reflexivity.
  - reflexivity.
Defined.

(** The first component of a record's [Path] is the vendor filter the scan
    was called with, not the vendor ID of the device: a scan without vendor
    filter puts 0 there.  The other two are the record's product ID and the
    port number that its port field holds. *)
Theorem path_carries_the_vendor_filter n vendorID productID l r cs :
  getAllDevices n vendorID productID = (l, r, cs) ->
  forall i, In i l ->
    exists port, Path i = (vendorID, ProductID i, port) /\ libusbPort i = Some port.
Proof.
  intros H i Hi. apply (returned_records _ _ _ _ _ _ H), emitted_record in Hi.
  destruct Hi as (dev & k & alt & _ & _ & _ & _ & ->). cbn. eauto.
Qed.

Lemma path_carries_the_vendor_filter_witness :
  exists port,
    Path (hd Samples.wanted (fst (fst (getAllDevices Samples.twoAltWorld 0 0))))
      = (0, 0x0001, port)
    /\ VendorID (hd Samples.wanted (fst (fst (getAllDevices Samples.twoAltWorld 0 0))))
       = 0x1209.
Proof.
  destruct (path_carries_the_vendor_filter Samples.twoAltWorld 0 0
              (fst (fst (getAllDevices Samples.twoAltWorld 0 0)))
              (snd (fst (getAllDevices Samples.twoAltWorld 0 0)))
              (snd (getAllDevices Samples.twoAltWorld 0 0))
              eq_refl
              (hd Samples.wanted (fst (fst (getAllDevices Samples.twoAltWorld 0 0))))
              (or_introl eq_refl)) as (port & HP & _).
  exists port. split; [exact HP | reflexivity].
Defined.

Lemma scan_directions (ends : list endpoint_descriptor) :
  (forall a, reader (scanEndpoints ends) = Some a -> Z.testbit a 7 = true)
  /\ (forall a, writer (scanEndpoints ends) = Some a -> Z.testbit a 7 = false).
Proof.
  unfold scanEndpoints.
  destruct (scan_last ends locals0) as [Hr Hw]. cbn in Hr, Hw.
  split; intros a Ha.
  - destruct (find candidateIn (rev ends)) as [e |] eqn:E;
      injection Hr as H1 _; [| congruence].
    apply find_some in E. destruct E as [_ E]. apply candidateIn_iff in E.
    rewrite Ha in H1. injection H1 as ->. apply E.
  - destruct (find candidateOut (rev ends)) as [e |] eqn:E;
      injection Hw as H1 _; [| congruence].
    apply find_some in E. destruct E as [_ E]. apply candidateOut_iff in E.
    rewrite Ha in H1. injection H1 as ->. apply E.
Qed.

(** Every record handed back names a device of the native list, an IN
    endpoint address with bit 7 set and an OUT endpoint address with bit 7
    clear. *)
Theorem returned_records_are_wired n vendorID productID l r cs :
  getAllDevices n vendorID productID = (l, r, cs) ->
  forall i, In i l ->
    In (libusbDevice i) (map ptr (devices n))
    /\ exists a b,
         libusbReader i = Some a /\ libusbWriter i = Some b
         /\ Z.testbit a 7 = true /\ Z.testbit b 7 = false.
Proof.
  intros H i Hi. apply (returned_records _ _ _ _ _ _ H), emitted_record in Hi.
  destruct Hi as (dev & k & alt & Hin & _ & _ & (_ & Hr & Hw) & ->). cbn.
  split; [now apply in_map |].
  apply scan_reader_some in Hr. apply scan_writer_some in Hw.
  destruct (scan_directions (endpoint alt)) as [Dr Dw].
  destruct (reader (scanEndpoints (endpoint alt))) as [a |]; [| congruence].
  destruct (writer (scanEndpoints (endpoint alt))) as [b |]; [| congruence].
  exists a, b.
  split; [reflexivity |]. split; [reflexivity |].
  split; [apply Dr | apply Dw]; reflexivity.
Qed.

Lemma returned_records_are_wired_witness :
  In (libusbDevice (hd Samples.wanted (fst (fst (getAllDevices Samples.mixedWorld 0 0)))))
     (map ptr (devices Samples.mixedWorld)).
Proof.
  exact (proj1 (returned_records_are_wired Samples.mixedWorld 0 0
                  (fst (fst (getAllDevices Samples.mixedWorld 0 0)))
                  (snd (fst (getAllDevices Samples.mixedWorld 0 0)))
                  (snd (getAllDevices Samples.mixedWorld 0 0))
                  eq_refl _ (or_introl eq_refl))).
Defined.

(** An error from [getAllDevices] is one of four: the context could not be
    created (nothing else was called and nothing is returned); the listing
    answered a negative count (nothing is returned); the descriptor of the
    device at the index named in the error could not be read; or a
    configuration, at the index named, of a device that had passed the
    filters could not be read. *)
Theorem discovery_errors n vendorID productID l e cs :
  getAllDevices n vendorID productID = (l, Some e, cs) ->
  (ctx_set n = false /\ l = [] /\ cs = [libusb_init]
   /\ exists e0, fromLibusbErrno (init_errno n) = Some e0 /\ e = ErrInit e0)
  \/ (device_list_count n < 0 /\ e = libusbError (device_list_count n) /\ l = [])
  \/ descriptorFailure n e
  \/ configFailure n vendorID productID e.
Proof.
  intros H. apply getAllDevices_trace in H.
  destruct H as [(Hc & Hl & Hcs & e0 & He & [= ->]) | (_ & dc & _ & _ & _ & _ & E)].
  - left. eauto 6.
  - destruct E as [(Hn & -> & -> & _) | (_ & [D | C])]; tauto.
Qed.

Lemma discovery_errors_witness :
  descriptorFailure MoreSamples.midScanFailure
    (ErrDeviceDescriptor 1 (libusbError (-1))).
Proof.
  destruct (discovery_errors MoreSamples.midScanFailure 0 0
              (fst (fst (getAllDevices MoreSamples.midScanFailure 0 0)))
              (ErrDeviceDescriptor 1 (libusbError (-1)))
              (snd (getAllDevices MoreSamples.midScanFailure 0 0)) eq_refl)
    as [(F & _) | [(F & _) | [D | (k & d & c & e0 & _ & _ & _ & F)]]];
    [discriminate F | vm_compute in F; discriminate F | exact D | discriminate F].
Defined.

(** When [getAllDevices] returns an error it has released nothing: every
    record in the partial result still holds the reference retained for it,
    and no other retain was made. *)
Theorem error_path_keeps_retentions n vendorID productID l e cs :
  getAllDevices n vendorID productID = (l, Some e, cs) ->
  forall d, refs d cs = recordsOn d l /\ unrefs d cs = 0%nat.
Proof.
  intros H d. apply getAllDevices_trace in H.
  destruct H as [(_ & -> & -> & _) | (_ & dc & -> & F & Hr & _)]; [split; reflexivity |].
  assert (Q : unrefs d dc = 0%nat).
  { eapply (deviceCalls_quiet _ dc); [| exact F].
    intros c (dev & _ & Hc). eauto. }
  assert (P : refs d (prologue n) = 0%nat /\ unrefs d (prologue n) = 0%nat)
    by (unfold prologue; destruct (ctx_set n); split; reflexivity).
  rewrite !refs_app, !unrefs_app, Hr, Q. destruct P as [-> ->]. cbn. lia.
Qed.

Lemma error_path_keeps_retentions_witness :
  refs 1 (snd (getAllDevices MoreSamples.midScanFailure 0 0)) = 2%nat
  /\ unrefs 1 (snd (getAllDevices MoreSamples.midScanFailure 0 0)) = 0%nat.
Proof.
  exact (error_path_keeps_retentions MoreSamples.midScanFailure 0 0
           (fst (fst (getAllDevices MoreSamples.midScanFailure 0 0)))
           (ErrDeviceDescriptor 1 (libusbError (-1)))
           (snd (getAllDevices MoreSamples.midScanFailure 0 0)) eq_refl 1%nat).
Defined.

(** The native calls of [getAllDevices] are: creating the context, the
    listing, descriptor and port queries and retains on devices of the list,
    one release per returned record when there is no error, and the deferred
    free of the nil pointer.  The list that the native layer handed out is
    never passed to [libusb_free_device_list], no device is opened and no
    handle is touched. *)
Theorem discovery_calls n vendorID productID l r cs :
  getAllDevices n vendorID productID = (l, r, cs) ->
  forall c, In c cs ->
    c = libusb_init
    \/ c = libusb_get_device_list (device_list_count n) (map ptr (devices n))
    \/ c = libusb_free_device_list None 1
    \/ (r = None /\ exists i, In i l /\ c = libusb_unref_device (libusbDevice i))
    \/ (exists dev, In dev (devices n) /\ deviceCall (ptr dev) c).
Proof.
  intros H c Hc. apply getAllDevices_trace in H.
  destruct H as [(_ & _ & -> & _) | (_ & dc & -> & F & _)].
  - destruct Hc as [<- | []]. now left.
  - unfold prologue in Hc. rewrite !in_app_iff in Hc.
    destruct Hc as [[Hc | [<- | []]] | [Hc | [Hc | [<- | []]]]]; auto.
    + destruct (ctx_set n); [destruct Hc | destruct Hc as [<- | []]; now left].
    + right. right. right. right. rewrite Forall_forall in F. auto.
    + destruct r; [destruct Hc |]. apply in_map_iff in Hc.
      destruct Hc as (i & <- & Hi). right. right. right. left. eauto.
Qed.

Lemma discovery_calls_witness :
  libusb_free_device_list None 1 = libusb_init
  \/ libusb_free_device_list None 1
     = libusb_get_device_list (device_list_count Samples.twoAltWorld)
         (map ptr (devices Samples.twoAltWorld))
  \/ libusb_free_device_list None 1 = libusb_free_device_list None 1
  \/ (@None error = None
      /\ exists i, In i (fst (fst (getAllDevices Samples.twoAltWorld 0 0)))
                   /\ libusb_free_device_list None 1
                      = libusb_unref_device (libusbDevice i))
  \/ (exists dev, In dev (devices Samples.twoAltWorld)
                  /\ deviceCall (ptr dev) (libusb_free_device_list None 1)).
Proof.
  apply (discovery_calls Samples.twoAltWorld 0 0
           (fst (fst (getAllDevices Samples.twoAltWorld 0 0))) None
           (snd (getAllDevices Samples.twoAltWorld 0 0)) eq_refl).
  vm_compute. tauto.
Defined.

(** With the native reference counting as modelled in [Refcount]: after a
    call that returns no error, every device holds exactly the references
    that the listing took for it, whether records were emitted for it or
    not, because the list is never released. *)
Theorem enumeration_leaves_the_list_references n vendorID productID l cs :
  getAllDevices n vendorID productID = (l, None, cs) ->
  forall d,
    outstanding cs d = Z.of_nat (count_occ Nat.eq_dec (map ptr (devices n)) d).
Proof.
  intros H d. apply getAllDevices_trace in H.
  destruct H as [(_ & _ & _ & e0 & _ & [=]) | (_ & dc & -> & F & Hr & _)].
  assert (Q : outstanding dc d = Z.of_nat (refs d dc)).
  { eapply (deviceCalls_quiet _ dc); [| exact F].
    intros c (dev & _ & Hc). eauto. }
  assert (P : outstanding (prologue n) d
              = Z.of_nat (count_occ Nat.eq_dec (map ptr (devices n)) d)).
  { unfold prologue. destruct (ctx_set n); cbn; lia. }
  rewrite !outstanding_app, P, Q, Hr, outstanding_released. cbn. lia.
Qed.

Lemma enumeration_leaves_the_list_references_witness :
  outstanding (snd (getAllDevices Samples.mixedWorld 0 0)) 1 = 1.
Proof.
  exact (enumeration_leaves_the_list_references Samples.mixedWorld 0 0
           (fst (fst (getAllDevices Samples.mixedWorld 0 0)))
           (snd (getAllDevices Samples.mixedWorld 0 0)) eq_refl 1%nat).
Defined.

End DiscoveryExtras.

(** ** More on open and Close *)

Module LifecycleExtras.
Import Lifecycle Selection Shapes Refcount Progress LifecycleFacts.

Lemma unrefs_unref d (l : list DeviceInfo) : unrefs d (map unref l) = recordsOn d l.
Proof. apply DiscoveryClaims.unrefs_released. Qed.

Lemma refs_unref d (l : list DeviceInfo) : refs d (map unref l) = 0%nat.
Proof. apply DiscoveryClaims.refs_released. Qed.

Lemma samePort_true_matches m i :
  samePortAndInterface m i = Some true -> matches i m.
Proof.
  unfold samePortAndInterface, matches.
  destruct (libusbPort m) as [p |], (libusbPort i) as [q |]; try discriminate.
  intros [= H]. apply andb_true_iff in H. destruct H as [H1 H2].
  apply Z.eqb_eq in H1, H2. split; congruence.
Qed.

Lemma selectLoop_result i l cs device c1 :
  selectLoop i l None cs = (Ret (Some device), c1) ->
  exists m, In m l /\ matches i m /\ device = libusbDevice m.
Proof.
  revert cs. induction l as [| m l IH]; intros cs; cbn; [discriminate |].
  destruct (samePortAndInterface m i) as [[|] |] eqn:E; [| | discriminate].
  - rewrite selectLoop_selected. intros [= <- _].
    exists m. split; [now left |]. split; [now apply samePort_true_matches | reflexivity].
  - intros H. apply IH in H. destruct H as (m' & Hin & Hm). exists m'. split; [now right | exact Hm].
Qed.

Lemma selectLoop_panic i l device cs p c1 :
  selectLoop i l device cs = (Panic p, c1) ->
  p = NilDereference /\ exists m, In m l /\ samePortAndInterface m i = None.
Proof.
  revert device cs. induction l as [| m l IH]; intros device cs; cbn; [discriminate |].
  destruct device as [d |].
  - rewrite selectLoop_selected. discriminate.
  - destruct (samePortAndInterface m i) as [[|] |] eqn:E.
    + rewrite selectLoop_selected. discriminate.
    + intros H. apply IH in H. destruct H as [-> (m' & Hin & Hm)].
      split; [reflexivity |]. exists m'. split; [now right | exact Hm].
    + intros [= <- _]. split; [reflexivity |]. exists m. split; [now left | exact E].
Qed.

(** [open] once a device is selected. *)
Lemma open_selected n i l cs device c1 :
  Discovery.getAllDevices n (VendorID i) (ProductID i) = (l, None, cs) ->
  selectLoop i l None cs = (Ret (Some device), c1) ->
  open n i =
    let h := snd (open_result n device) in
    let through :=
      [libusb_open device;
       libusb_set_auto_detach_kernel_driver h 1;
       libusb_detach_kernel_driver h (Interface i);
       libusb_claim_interface h (Interface i)] in
    match fromLibusbErrno (fst (open_result n device)) with
    | Some e => (Ret (None, Some (ErrOpen e)), c1 ++ [libusb_open device])
    | None =>
        match fromLibusbErrno (claim_errno n h (Interface i)) with
        | Some e => (Ret (None, Some (ErrClaim e)), c1 ++ through ++ [libusb_close h])
        | None => (Ret (Some (opened i device h), None), c1 ++ through)
        end
    end.
Proof.
  intros H S. unfold open. rewrite H, S.
  destruct (open_result n device) as [errno h]. cbn [fst snd].
  destruct (fromLibusbErrno errno); [reflexivity |].
  rewrite snd_SetAutoDetach, snd_DetachKernelDriver. cbn [handle_ info withDevice Interface].
  destruct (fromLibusbErrno (claim_errno n h (Interface i)));
    cbn; rewrite <- ?app_assoc; reflexivity.
Qed.

(** The three ways [open] can end before or at the candidate scan. *)
Lemma open_cases n i :
  (exists l e cs,
     Discovery.getAllDevices n (VendorID i) (ProductID i) = (l, Some e, cs)
     /\ open n i = (Ret (None, Some e), cs ++ map unref l))
  \/ (exists l cs,
        Discovery.getAllDevices n (VendorID i) (ProductID i) = (l, None, cs)
        /\ ((exists p c1, selectLoop i l None cs = (Panic p, c1) /\ open n i = (Panic p, c1))
            \/ (exists c1, selectLoop i l None cs = (Ret None, c1)
                           /\ open n i = (Ret (None, Some ErrOpenNotFound), c1))
            \/ (exists device c1, selectLoop i l None cs = (Ret (Some device), c1)))).
Proof.
  destruct (Discovery.getAllDevices n (VendorID i) (ProductID i)) as [[l [e |]] cs] eqn:H.
  - left. exists l, e, cs. split; [reflexivity |]. unfold open. now rewrite H.
  - right. exists l, cs. split; [reflexivity |].
    pose proof (open_after_scan n i l cs H) as O.
    destruct (selectLoop i l None cs) as [[p | [device |]] c1]; eauto 8.
Qed.

(** When the re-run discovery fails, [open] hands that error on, returns no
    handle, and makes one release call for each record of the partial
    result: on every device, the retain and release calls of the whole
    [open] are then equal in number. *)
Theorem open_releases_partial_results n i l e cs :
  Discovery.getAllDevices n (VendorID i) (ProductID i) = (l, Some e, cs) ->
  open n i = (Ret (None, Some e), cs ++ map unref l)
  /\ forall d, refs d (snd (open n i)) = unrefs d (snd (open n i)).
Proof.
  intros H.
  assert (O : open n i = (Ret (None, Some e), cs ++ map unref l))
    by (unfold open; now rewrite H).
  split; [exact O |]. intros d. rewrite O. cbn [snd].
  apply DiscoveryTrace.getAllDevices_trace in H.
  destruct H as [(_ & -> & -> & _) | (_ & dc & -> & F & Hr & _)]; [reflexivity |].
  assert (Q : unrefs d dc = 0%nat).
  { eapply (DiscoveryTrace.deviceCalls_quiet _ dc); [| exact F].
    intros c (dev & _ & Hc). eauto. }
  assert (P : refs d (prologue n) = 0%nat /\ unrefs d (prologue n) = 0%nat)
    by (unfold prologue; destruct (ctx_set n); split; reflexivity).
  rewrite !DiscoveryFacts.refs_app, !DiscoveryFacts.unrefs_app, Hr, Q,
    refs_unref, unrefs_unref.
  destruct P as [-> ->]. cbn. lia.
Qed.

Lemma open_releases_partial_results_witness :
  refs 1 (snd (open MoreSamples.midScanFailure Samples.wanted)) = 2%nat
  /\ unrefs 1 (snd (open MoreSamples.midScanFailure Samples.wanted)) = 2%nat.
Proof.
  pose proof (proj2 (open_releases_partial_results MoreSamples.midScanFailure
                       Samples.wanted
                       (fst (fst (Discovery.getAllDevices MoreSamples.midScanFailure 0x1209 0x0001)))
                       (ErrDeviceDescriptor 1 (libusbError (-1)))
                       (snd (Discovery.getAllDevices MoreSamples.midScanFailure 0x1209 0x0001))
                       eq_refl) 1%nat) as H.
  split; [reflexivity | rewrite <- H; reflexivity].
Defined.

(** [open] returns either a handle or an error, never both and never
    neither; it can only panic with a nil dereference, and only when the
    port pointer of the requested record is nil. *)
Theorem open_returns_handle_or_error n i :
  (forall res, fst (open n i) = Ret res -> (fst res = None <-> snd res <> None))
  /\ (forall p, fst (open n i) = Panic p -> p = NilDereference /\ libusbPort i = None)
  /\ (libusbPort i <> None -> exists res, fst (open n i) = Ret res).
Proof.
  assert (P : forall p, fst (open n i) = Panic p ->
                p = NilDereference /\ libusbPort i = None).
  { intros p Hp.
    destruct (open_cases n i) as [(l & e & cs & _ & O) | (l & cs & H & O)].
    - rewrite O in Hp. discriminate.
    - destruct O as [(p' & c1 & S & O) | [(c1 & _ & O) | (device & c1 & S)]].
      + rewrite O in Hp. injection Hp as ->.
        apply selectLoop_panic in S. destruct S as [-> (m & Hin & Hm)].
        split; [reflexivity |].
        pose proof (ports_populated _ _ _ _ _ H m Hin) as Hport.
        unfold samePortAndInterface in Hm.
        destruct (libusbPort m); [| congruence].
        destruct (libusbPort i); [discriminate | reflexivity].
      + rewrite O in Hp. discriminate.
      + rewrite (open_selected n i l cs device c1 H S) in Hp. cbn zeta in Hp.
        destruct (fromLibusbErrno (fst (open_result n device))); [discriminate |].
        destruct (fromLibusbErrno (claim_errno n _ _)); discriminate. }
  split; [| split; [exact P |]].
  - intros res Hres.
    destruct (open_cases n i) as [(l & e & cs & _ & O) | (l & cs & H & O)].
    + rewrite O in Hres. injection Hres as <-. cbn. split; [discriminate | reflexivity].
    + destruct O as [(p' & c1 & S & O) | [(c1 & _ & O) | (device & c1 & S)]].
      * rewrite O in Hres. discriminate.
      * rewrite O in Hres. injection Hres as <-. cbn. split; [discriminate | reflexivity].
      * rewrite (open_selected n i l cs device c1 H S) in Hres. cbn zeta in Hres.
        destruct (fromLibusbErrno (fst (open_result n device)));
          [injection Hres as <-; cbn; split; [discriminate | reflexivity] |].
        destruct (fromLibusbErrno (claim_errno n _ _)); injection Hres as <-; cbn;
          split; try discriminate; try reflexivity; congruence.
  - intros Hport. destruct (fst (open n i)) as [p | res] eqn:E; [| eauto].
    destruct (P p eq_refl) as [_ X]. congruence.
Qed.

Lemma open_returns_handle_or_error_witness :
  exists res, fst (open Samples.twoAltWorld Samples.wanted) = Ret res.
Proof.
  apply (proj2 (proj2 (open_returns_handle_or_error Samples.twoAltWorld Samples.wanted))).
  discriminate.
Defined.

(** A handle that [open] returns wraps the caller's own record, in which
    only the device is replaced, by the device of a candidate of the re-run
    discovery that has the record's port and interface index; the endpoint
    fields are not refreshed from the re-scan.  Both timeouts are 0, the
    native handle is the one the native open produced, and the interface
    claimed on it is the record's interface index. *)
Theorem open_wraps_the_callers_record n i dev :
  fst (open n i) = Ret (Some dev, None) ->
  exists l cs m,
    Discovery.getAllDevices n (VendorID i) (ProductID i) = (l, None, cs)
    /\ In m l /\ matches i m
    /\ dev = opened i (libusbDevice m) (snd (open_result n (libusbDevice m)))
    /\ In (libusb_claim_interface (handle_ dev) (Interface i)) (snd (open n i)).
Proof.
  intros Hd.
  destruct (open_cases n i) as [(l & e & cs & _ & O) | (l & cs & H & O)].
  - rewrite O in Hd. discriminate.
  - destruct O as [(p' & c1 & S & O) | [(c1 & _ & O) | (device & c1 & S)]];
      try (rewrite O in Hd; discriminate).
    pose proof (open_selected n i l cs device c1 H S) as O. cbn zeta in O.
    apply selectLoop_result in S. destruct S as (m & Hin & Hm & ->).
    exists l, cs, m. rewrite O in Hd |- *.
    destruct (fromLibusbErrno (fst (open_result n (libusbDevice m)))); [discriminate |].
    destruct (fromLibusbErrno (claim_errno n _ _)); [discriminate |].
    cbn [fst snd] in *. injection Hd as <-.
    split; [exact H |]. split; [exact Hin |]. split; [exact Hm |].
    split; [reflexivity |].
    apply in_or_app. right. cbn. auto.
Qed.

Lemma open_wraps_the_callers_record_witness :
  exists l cs m,
    Discovery.getAllDevices Samples.twoAltWorld 0x1209 0x0001 = (l, None, cs)
    /\ In m l /\ matches Samples.wanted m
    /\ opened Samples.wanted 1 (Some 1%nat)
       = opened Samples.wanted (libusbDevice m)
           (snd (open_result Samples.twoAltWorld (libusbDevice m)))
    /\ In (libusb_claim_interface (Some 1%nat) 0)
          (snd (open Samples.twoAltWorld Samples.wanted)).
Proof.
  exact (open_wraps_the_callers_record Samples.twoAltWorld Samples.wanted
           (opened Samples.wanted 1 (Some 1%nat)) eq_refl).
Defined.

Lemma discovery_error_kind n vid pid l e cs :
  Discovery.getAllDevices n vid pid = (l, Some e, cs) ->
  (forall x, e <> ErrOpen x) /\ (forall x, e <> ErrClaim x) /\ e <> ErrOpenNotFound.
Proof.
  intros H. apply DiscoveryTrace.getAllDevices_trace in H.
  destruct H as [(_ & _ & _ & e0 & _ & [= ->]) | (_ & dc & _ & _ & _ & _ & E)].
  - repeat split; intros; discriminate.
  - destruct E as [(_ & -> & _)
                  | (_ & [(k & d & e0 & _ & _ & ->) | (k & d & c & e0 & _ & _ & _ & ->)])];
      repeat split; intros; discriminate.
Qed.

(** After a failed native open the last native call of [open] is that
    [libusb_open]: nothing is closed or released.  After a failed claim the
    last two native calls are the claim and one [libusb_close] of the same
    handle. *)
Theorem open_failures_after_selection n i e :
  (fst (open n i) = Ret (None, Some (ErrOpen e)) ->
   exists before device, snd (open n i) = before ++ [libusb_open device])
  /\ (fst (open n i) = Ret (None, Some (ErrClaim e)) ->
      exists before h,
        snd (open n i)
          = before ++ [libusb_claim_interface h (Interface i); libusb_close h]).
Proof.
  destruct (open_cases n i) as [(l & e' & cs & H & O) | (l & cs & H & O)].
  - apply discovery_error_kind in H. destruct H as (H1 & H2 & _).
    rewrite O. cbn [fst]. split; intros [= ->]; [destruct (H1 e) | destruct (H2 e)];
      reflexivity.
  - destruct O as [(p' & c1 & S & O) | [(c1 & _ & O) | (device & c1 & S)]];
      try (rewrite O; split; discriminate).
    rewrite (open_selected n i l cs device c1 H S). cbn zeta.
    destruct (fromLibusbErrno (fst (open_result n device))) as [e1 |].
    + split; [| discriminate]. intros _. exists c1, device. reflexivity.
    + destruct (fromLibusbErrno (claim_errno n _ _)) as [e1 |];
        [| split; discriminate].
      split; [discriminate |]. intros _. cbn [snd].
      exists (c1 ++ [libusb_open device;
                     libusb_set_auto_detach_kernel_driver (snd (open_result n device)) 1;
                     libusb_detach_kernel_driver (snd (open_result n device)) (Interface i)]),
        (snd (open_result n device)).
      rewrite <- !app_assoc. reflexivity.
Qed.

Lemma open_failures_after_selection_witness :
  exists before device,
    snd (open (withOpenResult Samples.twoAltWorld (fun _ => (-3, None))) Samples.wanted)
      = before ++ [libusb_open device].
Proof.
  apply (proj1 (open_failures_after_selection
                  (withOpenResult Samples.twoAltWorld (fun _ => (-3, None)))
                  Samples.wanted (libusbError (-3)))).
  reflexivity.
Defined.

(** Up to the end of the candidate scan of [open], every record of the
    re-run discovery was retained once, and released once by [getAllDevices]
    itself; the scan releases every candidate but the selected one a second
    time.  So on each device the release calls number twice its records,
    less one on the device that was selected. *)
Theorem open_scan_releases_a_second_time n i l cs port :
  Discovery.getAllDevices n (VendorID i) (ProductID i) = (l, None, cs) ->
  libusbPort i = Some port ->
  forall d,
    refs d (snd (selectLoop i l None cs)) = recordsOn d l
    /\ match fst (selectLoop i l None cs) with
       | Ret (Some device) =>
           (unrefs d (snd (selectLoop i l None cs))
            + (if Nat.eqb device d then 1 else 0) = 2 * recordsOn d l)%nat
       | Ret None =>
           unrefs d (snd (selectLoop i l None cs)) = (2 * recordsOn d l)%nat
       | Panic _ => False
       end.
Proof.
  intros H Hport d.
  pose proof (ports_populated _ _ _ _ _ H) as Hp.
  apply DiscoveryFacts.getAllDevices_ok in H.
  destruct H as (dc & E & Hr & Hu & _).
  assert (C : refs d cs = recordsOn d l /\ unrefs d cs = recordsOn d l).
  { assert (P : refs d (prologue n) = 0%nat /\ unrefs d (prologue n) = 0%nat)
      by (unfold prologue; destruct (ctx_set n); split; reflexivity).
    rewrite E, !DiscoveryFacts.refs_app, !DiscoveryFacts.unrefs_app, Hr, Hu,
      DiscoveryClaims.refs_released, DiscoveryClaims.unrefs_released.
    destruct P as [-> ->]. cbn. lia. }
  destruct C as [Cr Cu].
  destruct (first_match i l) as [Hno | (pre & m & post & -> & Hpre & Hm)].
  - rewrite (selectLoop_none i l cs port Hport Hp Hno). cbn [fst snd].
    rewrite DiscoveryFacts.refs_app, DiscoveryFacts.unrefs_app, refs_unref, unrefs_unref.
    lia.
  - assert (Hp' : forall x, In x pre -> libusbPort x <> None)
      by (intros x Hx; apply Hp, in_or_app; now left).
    rewrite (selectLoop_first i pre m post cs port Hport Hp' Hpre Hm). cbn [fst snd].
    rewrite !DiscoveryFacts.refs_app, !DiscoveryFacts.unrefs_app,
      !refs_unref, !unrefs_unref, Cr, Cu.
    rewrite DiscoveryFacts.recordsOn_app.
    change (m :: post) with ([m] ++ post). rewrite DiscoveryFacts.recordsOn_app.
    assert (M : recordsOn d [m] = if Nat.eqb (libusbDevice m) d then 1%nat else 0%nat)
      by (unfold recordsOn; cbn; now destruct (Nat.eqb (libusbDevice m) d)).
    rewrite M. destruct (Nat.eqb (libusbDevice m) d); lia.
Qed.

Lemma open_scan_releases_a_second_time_witness :
  (unrefs 1 (snd (selectLoop Samples.wanted
                    (fst (fst (Discovery.getAllDevices Samples.twoAltWorld 0x1209 0x0001)))
                    None
                    (snd (Discovery.getAllDevices Samples.twoAltWorld 0x1209 0x0001))))
   + 1 = 2 * 2)%nat.
Proof.
  exact (proj2 (open_scan_releases_a_second_time Samples.twoAltWorld Samples.wanted
                  (fst (fst (Discovery.getAllDevices Samples.twoAltWorld 0x1209 0x0001)))
                  (snd (Discovery.getAllDevices Samples.twoAltWorld 0x1209 0x0001))
                  4 eq_refl eq_refl 1%nat)).
Defined.

(** [SetAutoDetach] reports success when the native call succeeds or
    answers "not supported", and returns every other errno as an error,
    "not found" included; [open] drops what it returns: the result of
    [open] and its native calls do not depend on the answer. *)
Theorem auto_detach_result_is_dropped_by_open :
  (forall n dev val,
     fst (SetAutoDetach n dev val)
       = let errno := set_auto_detach_errno n (handle_ dev) val in
         if autoDetachTolerated errno then None else Some (libusbError errno))
  /\ (forall n f i, open (withAutoDetach n f) i = open n i).
Proof.
  split.
  - intros n dev val. unfold SetAutoDetach, autoDetachTolerated, fromLibusbErrno.
    cbn zeta. set (errno := set_auto_detach_errno n (handle_ dev) val).
    destruct (Z.eqb_spec errno C.LIBUSB_SUCCESS) as [E | E]; [reflexivity |].
    unfold ErrNotSupported. cbn [error_eqb orb fst].
    destruct (errno =? C.LIBUSB_ERROR_NOT_SUPPORTED); reflexivity.
  - intros n f i. unfold open.
    change (Discovery.getAllDevices (withAutoDetach n f) (VendorID i) (ProductID i))
      with (Discovery.getAllDevices n (VendorID i) (ProductID i)).
    destruct (Discovery.getAllDevices n (VendorID i) (ProductID i)) as [[l err] c0].
    destruct err; [reflexivity |].
    destruct (selectLoop i l None c0) as [[p | [device |]] c1]; try reflexivity.
    cbn [open_result withAutoDetach claim_errno].
    destruct (open_result n device) as [errno h].
    destruct (fromLibusbErrno errno); [reflexivity |].
    rewrite !snd_SetAutoDetach, !snd_DetachKernelDriver. reflexivity.
Qed.

(** Closing a handle that [open] returned releases the interface index that
    [open] claimed, on the same native handle, closes that handle once,
    and then releases the device that [open] had selected; the record and
    the timeouts of the handle are left as they were. *)
Theorem close_undoes_open n i dev :
  fst (open n i) = Ret (Some dev, None) ->
  In (libusb_claim_interface (handle_ dev) (Interface i)) (snd (open n i))
  /\ In (libusb_open (libusbDevice (info dev))) (snd (open n i))
  /\ Close dev =
       ({| info := info dev; handle_ := None;
           writeTimeout := writeTimeout dev; readTimeout := readTimeout dev |},
        None,
        match handle_ dev with
        | Some h => [libusb_release_interface (Some h) (Interface i);
                     libusb_close (Some h)]
        | None => []
        end ++ [libusb_unref_device (libusbDevice (info dev))]).
Proof.
  intros Hd.
  destruct (open_cases n i) as [(l & e & cs & _ & O) | (l & cs & H & O)].
  - rewrite O in Hd. discriminate.
  - destruct O as [(p' & c1 & S & O) | [(c1 & _ & O) | (device & c1 & S)]];
      try (rewrite O in Hd; discriminate).
    pose proof (open_selected n i l cs device c1 H S) as O. cbn zeta in O.
    rewrite O in Hd |- *.
    destruct (fromLibusbErrno (fst (open_result n device))); [discriminate |].
    destruct (fromLibusbErrno (claim_errno n _ _)); [discriminate |].
    cbn [fst snd] in *. injection Hd as <-. cbn [opened handle_ info withDevice libusbDevice].
    split; [apply in_or_app; right; cbn; auto |].
    split; [apply in_or_app; right; cbn; auto |].
    unfold Close. cbn. destruct (snd (open_result n device)); reflexivity.
Qed.

Lemma close_undoes_open_witness :
  Close (opened Samples.wanted 1 (Some 1%nat)) =
    ({| info := info (opened Samples.wanted 1 (Some 1%nat)); handle_ := None;
        writeTimeout := 0; readTimeout := 0 |},
     None,
     [libusb_release_interface (Some 1%nat) 0; libusb_close (Some 1%nat);
      libusb_unref_device 1]).
Proof.
  exact (proj2 (proj2 (close_undoes_open Samples.twoAltWorld Samples.wanted
                         (opened Samples.wanted 1 (Some 1%nat)) eq_refl))).
Defined.

End LifecycleExtras.

(** ** More on Read and Write *)

Module TransferExtras.
Import Lifecycle Transfer Shapes.

Lemma transfer_nonempty result made wrap dev ep x b timeout :
  transfer result made wrap dev (Some ep) (x :: b) timeout
    = (transferReturn wrap (result (handle_ dev) ep (x :: b) (C.uint timeout)),
       [made (handle_ dev) ep (x :: b) (C.int (Z.of_nat (length (x :: b))))
          (C.uint timeout)]).
Proof.
  unfold transfer, transferReturn.
  destruct (result _ _ _ _) as [errno t]. cbn [fst snd].
  destruct (fromLibusbErrno errno); reflexivity.
Qed.

Lemma Write_dispatch n dev w k x b :
  libusbWriter (info dev) = Some w ->
  writerTransferType (info dev) = Some k ->
  k = Constants.TransferTypeBulk \/ k = Constants.TransferTypeInterrupt ->
  Write n dev (x :: b)
    = (transferReturn ErrWrite
         (transferResult n k (handle_ dev) w (x :: b) (writeTimeout dev)),
       [transferCall k (handle_ dev) w (x :: b) (writeTimeout dev)]).
Proof.
  intros Hw Hk K. unfold Write, writeInterrupt, writeBulk. rewrite Hk, Hw.
  destruct K as [-> | ->]; cbn [Z.eqb]; apply transfer_nonempty.
Qed.

Lemma Read_dispatch n dev a k x b :
  libusbReader (info dev) = Some a ->
  readerTransferType (info dev) = Some k ->
  k = Constants.TransferTypeBulk \/ k = Constants.TransferTypeInterrupt ->
  Read n dev (x :: b)
    = (transferReturn ErrRead
         (transferResult n k (handle_ dev) a (x :: b) (readTimeout dev)),
       [transferCall k (handle_ dev) a (x :: b) (readTimeout dev)]).
Proof.
  intros Ha Hk K. unfold Read, readInterrupt, readBulk. rewrite Hk, Ha.
  destruct K as [-> | ->]; cbn [Z.eqb]; apply transfer_nonempty.
Qed.

(** A handle built, as [open] builds it, around a record that
    [getAllDevices] returned can always transfer a buffer that is not empty:
    [Write] and [Read] neither panic nor report an unsupported kind; each
    makes exactly one native call, of the kind recorded for its direction,
    on the record's OUT (IN) endpoint, with the buffer unchanged, its
    length converted to a C int, and the handle's write (read) timeout
    converted to a C unsigned int; a native failure comes back wrapped with
    a count of 0, a success with the transferred count. *)
Theorem returned_records_can_transfer n vendorID productID l r cs i n' device h wt rt x b :
  Discovery.getAllDevices n vendorID productID = (l, r, cs) ->
  In i l ->
  let dev := {| info := withDevice i device; handle_ := h;
                writeTimeout := wt; readTimeout := rt |} in
  exists a w ka kw,
    libusbReader i = Some a /\ libusbWriter i = Some w
    /\ readerTransferType i = Some ka /\ writerTransferType i = Some kw
    /\ Write n' dev (x :: b)
       = (transferReturn ErrWrite (transferResult n' kw h w (x :: b) wt),
          [transferCall kw h w (x :: b) wt])
    /\ Read n' dev (x :: b)
       = (transferReturn ErrRead (transferResult n' ka h a (x :: b) rt),
          [transferCall ka h a (x :: b) rt]).
Proof.
  intros H Hi dev.
  apply (DiscoveryExtras.returned_records _ _ _ _ _ _ H),
    DiscoveryClaims.emitted_fields in Hi.
  destruct Hi as (port & a & w & ka & kw & _ & Ha & Hw & Hka & Hkw & Ka & Kw).
  exists a, w, ka, kw.
  split; [exact Ha |]. split; [exact Hw |]. split; [exact Hka |]. split; [exact Hkw |].
  split.
  - apply (Write_dispatch n' dev w kw x b); auto.
  - apply (Read_dispatch n' dev a ka x b); auto.
Qed.

Lemma returned_records_can_transfer_witness :
  exists a w ka kw,
    libusbReader Samples.wanted = Some a /\ libusbWriter Samples.wanted = Some w
    /\ readerTransferType Samples.wanted = Some ka
    /\ writerTransferType Samples.wanted = Some kw
    /\ Write MoreSamples.timingOut (opened Samples.wanted 1 (Some 1%nat)) [7]
       = (transferReturn ErrWrite
            (transferResult MoreSamples.timingOut kw (Some 1%nat) w [7] 0),
          [transferCall kw (Some 1%nat) w [7] 0])
    /\ Read MoreSamples.timingOut (opened Samples.wanted 1 (Some 1%nat)) [7]
       = (transferReturn ErrRead
            (transferResult MoreSamples.timingOut ka (Some 1%nat) a [7] 0),
          [transferCall ka (Some 1%nat) a [7] 0]).
Proof.
  exact (returned_records_can_transfer Samples.twoAltWorld 0 0
           (fst (fst (Discovery.getAllDevices Samples.twoAltWorld 0 0)))
           (snd (fst (Discovery.getAllDevices Samples.twoAltWorld 0 0)))
           (snd (Discovery.getAllDevices Samples.twoAltWorld 0 0))
           Samples.wanted MoreSamples.timingOut 1%nat (Some 1%nat) 0 0 7 []
           eq_refl (or_introl eq_refl)).
Defined.

(** When the kind recorded for the direction is neither bulk nor interrupt,
    [Write] and [Read] return the unsupported-kind error with a count of 0
    and make no native call, whatever the buffer, the empty one included;
    the error of [Write] shows the reader's kind field, like that of [Read]. *)
Theorem unsupported_kind_makes_no_call n dev k b :
  k <> Constants.TransferTypeBulk -> k <> Constants.TransferTypeInterrupt ->
  (writerTransferType (info dev) = Some k ->
   Write n dev b
     = (Ret (0, Some (ErrUnsupported (readerTransferType (info dev)))), []))
  /\ (readerTransferType (info dev) = Some k ->
      Read n dev b
        = (Ret (0, Some (ErrUnsupported (readerTransferType (info dev)))), [])).
Proof.
  intros Kb Ki.
  assert (E1 : (k =? C.LIBUSB_TRANSFER_TYPE_INTERRUPT) = false)
    by (apply Z.eqb_neq; exact Ki).
  assert (E2 : (k =? C.LIBUSB_TRANSFER_TYPE_BULK) = false)
    by (apply Z.eqb_neq; exact Kb).
  split; intros Hk.
  - unfold Write. now rewrite Hk, E1, E2.
  - unfold Read. now rewrite Hk, E1, E2.
Qed.

Lemma unsupported_kind_makes_no_call_witness :
  Write Samples.twoAltWorld MoreSamples.kindless []
    = (Ret (0, Some (ErrUnsupported (Some 0))), []).
Proof.
  refine (proj1 (unsupported_kind_makes_no_call Samples.twoAltWorld
                   MoreSamples.kindless 0 [] _ _) eq_refl);
    discriminate.
Defined.

(** The two timeouts are independent: setting the read timeout changes
    nothing in what [Write] does, and setting the write timeout nothing in
    what [Read] does; the native call of a [Write] after [SetWriteTimeout t]
    carries [t] converted to a C unsigned int, that is [t] modulo 2^32 (so
    [t] itself when it lies in that range, and 4294967295 for -1), and
    likewise that of a [Read] after [SetReadTimeout t]. *)
Theorem timeouts_are_per_direction n dev t b :
  Write n (SetReadTimeout dev t) b = Write n dev b
  /\ Read n (SetWriteTimeout dev t) b = Read n dev b
  /\ (forall c, In c (snd (Write n (SetWriteTimeout dev t) b)) ->
        callTimeout c = Some (t mod 2 ^ 32))
  /\ (forall c, In c (snd (Read n (SetReadTimeout dev t) b)) ->
        callTimeout c = Some (t mod 2 ^ 32)).
Proof.
  assert (T : forall result made wrap d ep buf timeout c,
            (forall h e x l t0, callTimeout (made h e x l t0) = Some t0) ->
            In c (snd (transfer result made wrap d ep buf timeout)) ->
            callTimeout c = Some (timeout mod 2 ^ 32)).
  { intros result made wrap d ep buf timeout c Hmade. unfold transfer.
    destruct ep as [e |]; [| intros []]. destruct buf as [| x l]; [intros [] |].
    cbn zeta.
    destruct (result _ _ _ _) as [errno tr].
    destruct (fromLibusbErrno errno); cbn [snd]; intros [<- | []]; apply Hmade. }
  split; [reflexivity |]. split; [reflexivity |].
  split; intros c.
  - unfold Write, writeInterrupt, writeBulk. cbn [info writeTimeout SetWriteTimeout].
    destruct (writerTransferType (info dev)) as [k |]; [| intros []].
    destruct (k =? _); [apply T; reflexivity |].
    destruct (k =? _); [apply T; reflexivity | intros []].
  - unfold Read, readInterrupt, readBulk. cbn [info readTimeout SetReadTimeout].
    destruct (readerTransferType (info dev)) as [k |]; [| intros []].
    destruct (k =? _); [apply T; reflexivity |].
    destruct (k =? _); [apply T; reflexivity | intros []].
Qed.

Lemma timeouts_are_per_direction_witness :
  callTimeout (libusb_bulk_transfer (Some 1%nat) 1 [7] 1 4294967295)
    = Some ((-1) mod 2 ^ 32).
Proof.
  apply (proj1 (proj2 (proj2 (timeouts_are_per_direction Samples.twoAltWorld
                                Samples.openHandle (-1) [7])))).
  left. reflexivity.
Defined.

(** [Write] does not look at the native handle: on a handle that was
    closed it still makes the native transfer call, handing it the nil
    handle (with the length and the timeout converted to the C types as
    for an open handle), and returns whatever the native layer answers to
    that. *)
Theorem transfers_ignore_closed_handle n dev w k x b :
  libusbWriter (info dev) = Some w ->
  writerTransferType (info dev) = Some k ->
  k = Constants.TransferTypeBulk \/ k = Constants.TransferTypeInterrupt ->
  let closed := fst (fst (Close dev)) in
  handle_ closed = None
  /\ Write n closed (x :: b)
     = (transferReturn ErrWrite (transferResult n k None w (x :: b) (writeTimeout dev)),
        [transferCall k None w (x :: b) (writeTimeout dev)]).
Proof.
  intros Hw Hk K closed.
  assert (C : handle_ closed = None /\ info closed = info dev
              /\ writeTimeout closed = writeTimeout dev)
    by (unfold closed, Close; destruct (handle_ dev) eqn:E; cbn; auto).
  destruct C as (Ch & Ci & Ct). split; [exact Ch |].
  rewrite (Write_dispatch n closed w k x b); rewrite ?Ci; auto.
  now rewrite Ch, Ct.
Qed.

Lemma transfers_ignore_closed_handle_witness :
  snd (Write Samples.twoAltWorld (fst (fst (Close Samples.openHandle))) [7])
    = [libusb_bulk_transfer None 1 [7] 1 0].
Proof.
  exact (f_equal snd
           (proj2 (transfers_ignore_closed_handle Samples.twoAltWorld Samples.openHandle
                     1 2 7 [] eq_refl eq_refl (or_introl eq_refl)))).
Defined.

End TransferExtras.

(** ** The display strings *)

Module NamesFacts.
Import Names.

Lemma bytes_all (b : Z) : 0 <= b < 256 -> In b bytes.
Proof.
  intros H. unfold bytes. rewrite <- (Z2Nat.id b) by lia.
  apply in_map, in_seq. lia.
Qed.

Lemma lookup_none (m : list (Z * String.string)) (k : Z) :
  lookup m k = None <-> ~ In k (map fst m).
Proof.
  induction m as [| [k' v] m IH]; cbn; [tauto |].
  destruct (Z.eqb_spec k' k) as [-> | N].
  - split; [discriminate | tauto].
  - rewrite IH. tauto.
Qed.

Lemma lookup_some (m : list (Z * String.string)) (k : Z) v :
  lookup m k = Some v -> In v (map snd m).
Proof.
  induction m as [| [k' v'] m IH]; cbn; [discriminate |].
  destruct (k' =? k); [intros [= ->]; now left | auto].
Qed.

Lemma index_empty (m : list (Z * String.string)) (k : Z) :
  ~ In String.EmptyString (map snd m) ->
  index m k = String.EmptyString <-> ~ In k (map fst m).
Proof.
  intros Hne. rewrite <- lookup_none. unfold index.
  destruct (lookup m k) as [v |] eqn:E; [| tauto].
  split; [| discriminate]. intros ->. apply lookup_some in E. tauto.
Qed.

(** On the values of a [uint8], [Class.String] never returns the empty
    string and tells any two classes apart: the mapped descriptions are
    pairwise different and differ from every decimal fallback. *)
Theorem Class_String_is_injective (a b : Z) :
  0 <= a < 256 -> 0 <= b < 256 ->
  Class_String a <> String.EmptyString
  /\ (Class_String a = Class_String b -> a = b).
Proof.
  intros Ha Hb.
  assert (X : forallb (fun x =>
                 negb (String.eqb (Class_String x) String.EmptyString)
                 && forallb (fun y =>
                      implb (String.eqb (Class_String x) (Class_String y)) (x =? y))
                      bytes) bytes = true) by (vm_compute; reflexivity).
  rewrite forallb_forall in X. specialize (X a (bytes_all a Ha)).
  apply andb_true_iff in X. destruct X as [X1 X2].
  split.
  - intros E. rewrite E in X1. discriminate.
  - intros E. rewrite forallb_forall in X2. specialize (X2 b (bytes_all b Hb)).
    rewrite E, String.eqb_refl in X2. cbn in X2. now apply Z.eqb_eq.
Qed.

Lemma Class_String_is_injective_witness :
  Class_String 4 <> String.EmptyString
  /\ (Class_String 4 = Class_String 0xff -> 4 = 0xff).
Proof. apply Class_String_is_injective; lia. Defined.

(** For every attributes byte, the transfer type and the iso-sync type read
    through their masks have a name; the usage type read through its mask
    has one only when the usage bits are zero, because the usage constants
    are the numbers 0 to 5 and not values of bits 4-5. *)
Theorem attribute_field_names (b : Z) :
  0 <= b < 256 ->
  TransferType_String (Z.land b Constants.transferTypeMask) <> String.EmptyString
  /\ IsoSyncType_String (Z.land b Constants.isoSyncTypeMask) <> String.EmptyString
  /\ (UsageType_String (Z.land b Constants.usageTypeMask) = String.EmptyString
      <-> Z.land b Constants.usageTypeMask <> 0).
Proof.
  intros Hb.
  assert (X : forallb (fun x =>
                 negb (String.eqb (TransferType_String (Z.land x Constants.transferTypeMask))
                         String.EmptyString)
                 && negb (String.eqb (IsoSyncType_String (Z.land x Constants.isoSyncTypeMask))
                            String.EmptyString)
                 && Bool.eqb
                      (String.eqb (UsageType_String (Z.land x Constants.usageTypeMask))
                         String.EmptyString)
                      (negb (Z.land x Constants.usageTypeMask =? 0)))
                bytes = true) by (vm_compute; reflexivity).
  rewrite forallb_forall in X. specialize (X b (bytes_all b Hb)).
  apply andb_true_iff in X. destruct X as [X X3].
  apply andb_true_iff in X. destruct X as [X1 X2].
  apply negb_true_iff, String.eqb_neq in X1, X2.
  apply Bool.eqb_prop in X3.
  split; [exact X1 |]. split; [exact X2 |].
  rewrite <- String.eqb_eq, X3, negb_true_iff, Z.eqb_neq. tauto.
Qed.

Lemma attribute_field_names_witness :
  UsageType_String (Z.land 0x13 Constants.usageTypeMask) = String.EmptyString
  <-> Z.land 0x13 Constants.usageTypeMask <> 0.
Proof.
  apply (proj2 (proj2 (attribute_field_names 0x13 ltac:(lia)))).
Defined.

(** The lookups without fallback return the empty string exactly for the
    values that are not keys of their map: descriptor types, transfer
    types, iso-sync types, usage types and speeds. *)
Theorem unmapped_values_have_no_name (k : Z) :
  (DescriptorType_String k = String.EmptyString
     <-> ~ In k (map fst descriptorTypeDescription))
  /\ (TransferType_String k = String.EmptyString
        <-> ~ In k (map fst transferTypeDescription))
  /\ (IsoSyncType_String k = String.EmptyString
        <-> ~ In k (map fst isoSyncTypeDescription))
  /\ (UsageType_String k = String.EmptyString
        <-> ~ In k (map fst usageTypeDescription))
  /\ (Speed_String k = String.EmptyString
        <-> ~ In k (map fst deviceSpeedDescription)).
Proof.
  repeat split; try (apply index_empty; cbn; intuition discriminate);
    apply index_empty; cbn; intuition discriminate.
Qed.

End NamesFacts.
